(** * The text-to-SQL construct: workflow graph and database selection

    A shallow embedding of [src/patterns/gen-ai/aws-text-to-sql/index.ts].

    The first half ([Module Workflow]) is the step-function definition that
    the constructor builds with the chained [next] / [when] / [otherwise]
    calls: the states, their transitions, and a small interpreter that runs
    the graph against the four Lambda functions and the human reviewer.

    The second half ([Module Construct]) is the set-up code of the
    constructor: [validateDbProps], the selection of the database and the
    places where [this.secret] is read. *)

From Stdlib Require Import List String ZArith Bool Lia Arith.
Import ListNotations.
Open Scope string_scope.
Open Scope list_scope.

(** ** JSON documents and JSONPath addressing *)

#[local] Set Warnings "-register-all".

Inductive json : Type :=
| JNull
| JBool (b : bool)
| JNum (n : Z)
| JStr (s : string)
| JObj (members : list (string * json)).

(** A path such as [$.queryConfig.Payload.status] is the list of its member
    names; [$] alone is the empty list. *)
Definition path := list string.

Fixpoint member (k : string) (ms : list (string * json)) : option json :=
  match ms with
  | [] => None
  | (k', v) :: rest => if String.eqb k k' then Some v else member k rest
  end.

Fixpoint put (k : string) (v : json) (ms : list (string * json))
  : list (string * json) :=
  match ms with
  | [] => [(k, v)]
  | (k', v') :: rest =>
      if String.eqb k k' then (k, v) :: rest else (k', v') :: put k v rest
  end.

(** Reading a path; [None] when a member on the way is absent or the value
    met is not an object. *)
Fixpoint get_path (p : path) (j : json) : option json :=
  match p with
  | [] => Some j
  | k :: p' =>
      match j with
      | JObj ms =>
          match member k ms with
          | Some v => get_path p' v
          | None => None
          end
      | _ => None
      end
  end.

(** Writing a task result under a [resultPath].  Members on the way are
    created when absent; a value that is not an object cannot receive a
    member, which is a failure of the state. *)
Fixpoint set_path (p : path) (v : json) (j : json) : option json :=
  match p with
  | [] => Some v
  | k :: p' =>
      match j with
      | JObj ms =>
          let child := match member k ms with Some c => c | None => JObj [] end in
          match set_path p' v child with
          | Some c' => Some (JObj (put k c' ms))
          | None => None
          end
      | _ => None
      end
  end.

(** A value is the string [s], or the boolean [b]. *)
Definition json_str_eqb (v : json) (s : string) : bool :=
  match v with JStr s' => String.eqb s' s | _ => false end.

Definition json_bool_eqb (v : json) (b : bool) : bool :=
  match v with JBool b' => Bool.eqb b' b | _ => false end.

Module Workflow.

(** ** The states of the step function

    One constructor per state object of the constructor, named by the id
    string the source gives it (a trailing [?] of an id is dropped). *)

Inductive StateId : Type :=
| reformulate_question
| get_feedback_on_reformulated_question
| get_feedback_on_generated_query_path_one
| get_feedback_on_generated_query_path_two
| generate_query_path_one
| generate_alternate_query
| is_autocorrect_required
| configure_count
| iterator
| is_count_reached
| generate_query_path_two
| publish_query_result
| execute_query
| is_feedback_req_on_reformualted_question
| is_feedback_req_on_generated_query_path_two
| is_feedback_req_on_generated_query_path_one
| is_query_execution_req.

Definition StateId_eq_dec (a b : StateId) : {a = b} + {a <> b}.
Proof. decide equality. Defined.

Definition all_states : list StateId :=
  [ reformulate_question; get_feedback_on_reformulated_question;
    get_feedback_on_generated_query_path_one;
    get_feedback_on_generated_query_path_two;
    generate_query_path_one; generate_alternate_query;
    is_autocorrect_required; configure_count; iterator; is_count_reached;
    generate_query_path_two; publish_query_result; execute_query;
    is_feedback_req_on_reformualted_question;
    is_feedback_req_on_generated_query_path_two;
    is_feedback_req_on_generated_query_path_one;
    is_query_execution_req ].

(** The four Docker Lambda functions the graph invokes.  Reformulate is
    [reformulateQuestionFunction], GenerateQuery is [queryGeneratorFunction]
    (invoked by three states), ExecuteQuery is [queryExecutorFunction] and
    Iterate is [autocorrectQueryFunction]. *)
Inductive Fn : Type :=
| reformulateQuestionFunction
| queryGeneratorFunction
| queryExecutorFunction
| autocorrectQueryFunction.

Definition Fn_eqb (a b : Fn) : bool :=
  match a, b with
  | reformulateQuestionFunction, reformulateQuestionFunction
  | queryGeneratorFunction, queryGeneratorFunction
  | queryExecutorFunction, queryExecutorFunction
  | autocorrectQueryFunction, autocorrectQueryFunction => true
  | _, _ => false
  end.

(** The two queues: [queue] (feedback requests to the reviewer) and
    [outputQueue] (published results). *)
Inductive Queue : Type := queue | outputQueue.

Definition Queue_eqb (a b : Queue) : bool :=
  match a, b with
  | queue, queue | outputQueue, outputQueue => true
  | _, _ => false
  end.

(** Conditions of a [Choice] rule.  The graph-building interface offers
    comparisons of several kinds and boolean combinators; the workflow
    only ever uses the first two. *)
Inductive Condition : Type :=
| stringEquals (variable : path) (value : string)
| booleanEquals (variable : path) (value : bool)
| numberEquals (variable : path) (value : Z)
| numberLessThan (variable : path) (value : Z)
| numberGreaterThan (variable : path) (value : Z)
| isPresent (variable : path)
| cond_not (c : Condition)
| cond_and (c1 c2 : Condition)
| cond_or (c1 c2 : Condition).

(** Where a member of a message body takes its value from. *)
Inductive TaskInput : Type :=
| literal (s : string)
| fromJsonPathAt (p : path)
| stringAt (p : path)
| taskToken.

Inductive State : Type :=
| LambdaInvoke (lambdaFunction : Fn) (resultPath : path)
               (next : option StateId)
| SqsSendMessage (q : Queue) (messageBody : list (string * TaskInput))
                 (waitForTaskToken : bool) (next : option StateId)
| Pass (result : json) (resultPath : path) (next : option StateId)
| Choice (inputPath : option path) (choices : list (Condition * StateId))
         (otherwise : option StateId).

Definition generated_query_body : list (string * TaskInput) :=
  [ ("message",
     literal "Following is the generated query. Do you agree with it or want to override?");
    ("generated_query",
     stringAt ["queryConfig"; "Payload"; "validated_sql_query"]);
    ("reformualted_question", fromJsonPathAt ["reformulated_user_question"]);
    ("user_question", fromJsonPathAt ["user_question"]);
    ("question_unique_id", fromJsonPathAt ["question_unique_id"]);
    ("TaskToken", taskToken) ].

(** The graph, state by state, with the transitions the chained calls of
    the constructor install. *)
Definition definition (s : StateId) : State :=
  match s with
  | reformulate_question =>
      LambdaInvoke reformulateQuestionFunction ["queryConfig"]
        (Some is_feedback_req_on_reformualted_question)
  | is_feedback_req_on_reformualted_question =>
      Choice (Some ["queryConfig"; "Payload"])
        [ (stringEquals ["semantic_layer_strategy"] "human",
           get_feedback_on_reformulated_question) ]
        (Some generate_query_path_two)
  | get_feedback_on_reformulated_question =>
      SqsSendMessage queue
        [ ("message",
           literal "Following is the reformulated question. Do you agree with the new question?");
          ("reformualted_question",
           fromJsonPathAt ["reformulated_user_question"]);
          ("user_question", fromJsonPathAt ["user_question"]);
          ("question_unique_id", fromJsonPathAt ["question_unique_id"]);
          ("TaskToken", taskToken) ]
        true (Some generate_query_path_one)
  | generate_query_path_one =>
      LambdaInvoke queryGeneratorFunction ["queryConfig"]
        (Some is_feedback_req_on_generated_query_path_one)
  | is_feedback_req_on_generated_query_path_one =>
      Choice None
        [ (stringEquals ["queryConfig"; "Payload"; "sql_validation_strategy"]
             "human",
           get_feedback_on_generated_query_path_one) ]
        (Some is_query_execution_req)
  | get_feedback_on_generated_query_path_one =>
      SqsSendMessage queue generated_query_body true
        (Some is_query_execution_req)
  | generate_query_path_two =>
      LambdaInvoke queryGeneratorFunction ["queryConfig"]
        (Some is_feedback_req_on_generated_query_path_two)
  | is_feedback_req_on_generated_query_path_two =>
      Choice None
        [ (stringEquals ["queryConfig"; "Payload"; "sql_validation_strategy"]
             "human",
           get_feedback_on_generated_query_path_two) ]
        (Some is_query_execution_req)
  | get_feedback_on_generated_query_path_two =>
      SqsSendMessage queue generated_query_body true
        (Some is_query_execution_req)
  | is_query_execution_req =>
      Choice None
        [ (stringEquals ["queryConfig"; "Payload"; "execute_sql_strategy"]
             "disabled",
           publish_query_result) ]
        (Some execute_query)
  | execute_query =>
      LambdaInvoke queryExecutorFunction ["queryStatus"]
        (Some is_autocorrect_required)
  | is_autocorrect_required =>
      Choice None
        [ (stringEquals ["queryStatus"; "Payload"; "status"] "QUERY_ERROR",
           configure_count) ]
        (Some publish_query_result)
  | configure_count =>
      Pass (JObj [("count", JNum 3); ("index", JNum 0); ("step", JNum 1)])
        ["iterator"] (Some iterator)
  | iterator =>
      LambdaInvoke autocorrectQueryFunction ["iterator"]
        (Some is_count_reached)
  | is_count_reached =>
      Choice None
        [ (booleanEquals ["iterator"; "Payload"; "continue"] true,
           generate_alternate_query) ]
        (Some publish_query_result)
  | generate_alternate_query =>
      LambdaInvoke queryGeneratorFunction ["queryConfig"] (Some iterator)
  | publish_query_result =>
      SqsSendMessage outputQueue
        [ ("result", fromJsonPathAt ["queryStatus"; "Payload"; "result"]);
          ("user_question", fromJsonPathAt ["user_question"]);
          ("question_unique_id", fromJsonPathAt ["question_unique_id"]) ]
        false None
  end.

(** The state the definition starts with. *)
Definition startState : StateId := reformulate_question.

(** ** Running the graph

    The Lambda functions and the reviewer are outside the graph.  A world
    fixes what they answer: a function sees the state input it is invoked
    with, and the number of invocations of the same function earlier in the
    run (so that successive invocations may answer differently).  The
    reviewer sees the token and the message of a feedback request and
    either resumes the run with a document or never answers. *)

Definition Message := list (string * json).

Record World : Type := {
  lambda : Fn -> nat -> json -> json;
  reviewer : nat -> Message -> option json
}.

Inductive Event : Type :=
| Invoked (f : Fn) (payload : json)
| Sent (q : Queue) (from : StateId) (body : Message).

Definition is_call (f : Fn) (e : Event) : bool :=
  match e with Invoked g _ => Fn_eqb f g | Sent _ _ _ => false end.

Definition is_sent (q : Queue) (e : Event) : bool :=
  match e with Sent q' _ _ => Queue_eqb q q' | Invoked _ _ => false end.

Definition is_sent_from (s : StateId) (e : Event) : bool :=
  match e with
  | Sent _ s' _ => if StateId_eq_dec s s' then true else false
  | Invoked _ _ => false
  end.

(** Number of invocations of a function, of messages on a queue, and of
    messages sent by one state, in a trace. *)
Definition calls (f : Fn) (t : list Event) : nat :=
  List.length (filter (is_call f) t).

Definition sent (q : Queue) (t : list Event) : nat :=
  List.length (filter (is_sent q) t).

Definition sent_from (s : StateId) (t : list Event) : nat :=
  List.length (filter (is_sent_from s) t).

Record Config : Type := {
  at_state : StateId;
  ctx : json;
  trace : list Event
}.

Inductive Outcome : Type :=
| Next (c : Config)
| Done (t : list Event) (final : json)
| Waiting (t : list Event) (final : json)
| Fault (t : list Event) (final : json).

(** Evaluating a condition.  A comparison needs its variable: when the
    path is absent the evaluation is an error ([None]), which fails the
    state.  A variable of another type than the literal just does not
    compare equal. *)
Fixpoint eval (c : Condition) (input : json) : option bool :=
  match c with
  | stringEquals v s =>
      match get_path v input with
      | Some x => Some (json_str_eqb x s)
      | None => None
      end
  | booleanEquals v b =>
      match get_path v input with
      | Some x => Some (json_bool_eqb x b)
      | None => None
      end
  | numberEquals v n =>
      match get_path v input with
      | Some (JNum m) => Some (Z.eqb m n)
      | Some _ => Some false
      | None => None
      end
  | numberLessThan v n =>
      match get_path v input with
      | Some (JNum m) => Some (Z.ltb m n)
      | Some _ => Some false
      | None => None
      end
  | numberGreaterThan v n =>
      match get_path v input with
      | Some (JNum m) => Some (Z.ltb n m)
      | Some _ => Some false
      | None => None
      end
  | isPresent v =>
      Some (match get_path v input with Some _ => true | None => false end)
  | cond_not c1 => option_map negb (eval c1 input)
  | cond_and c1 c2 =>
      match eval c1 input with
      | Some true => eval c2 input
      | r => r
      end
  | cond_or c1 c2 =>
      match eval c1 input with
      | Some false => eval c2 input
      | r => r
      end
  end.

(** What the rules of a [Choice] select: rules are tried in the order of
    their declaration and the first one that holds decides; a rule that
    cannot be evaluated makes the selection undefined. *)
Inductive Selection : Type :=
| Selected (s : StateId)
| NoneHolds
| Undefined.

Fixpoint first_match (rules : list (Condition * StateId)) (input : json)
  : Selection :=
  match rules with
  | [] => NoneHolds
  | (c, s) :: rest =>
      match eval c input with
      | Some true => Selected s
      | Some false => first_match rest input
      | None => Undefined
      end
  end.

(** The branch a [Choice] takes on its (filtered) input: the selected
    rule's, the [otherwise] branch when no rule holds, none when the
    selection is undefined. *)
Definition choose (rules : list (Condition * StateId))
  (otherwise : option StateId) (input : json) : option StateId :=
  match first_match rules input with
  | Selected s => Some s
  | NoneHolds => otherwise
  | Undefined => None
  end.

(** [TaskInput.fromJsonPathAt] nested in [TaskInput.fromObject]: the
    member is the task-input object itself, of type text (0), whose [value]
    is taken from the path. *)
Definition text_input (v : json) : json :=
  JObj [("type", JNum 0); ("value", v)].

(** The value of one member of a message body; [None] when the path it is
    taken from is absent. *)
Definition render_input (i : TaskInput) (input : json) (token : nat)
  : option json :=
  match i with
  | literal s => Some (JStr s)
  | fromJsonPathAt p => option_map text_input (get_path p input)
  | stringAt p => get_path p input
  | taskToken => Some (JNum (Z.of_nat token))
  end.

(** The body of a message: each declared member with its value.  There
    is no body when a member has none. *)
Fixpoint render (body : list (string * TaskInput)) (input : json)
  (token : nat) : option Message :=
  match body with
  | [] => Some []
  | (k, i) :: rest =>
      match render_input i input token, render rest input token with
      | Some v, Some ms => Some ((k, v) :: ms)
      | _, _ => None
      end
  end.

Definition goto (next : option StateId) (j : json) (t : list Event)
  : Outcome :=
  match next with
  | Some s => Next {| at_state := s; ctx := j; trace := t |}
  | None => Done t j
  end.

(** One state of the graph.

    - A [LambdaInvoke] hands the whole context to the function and stores
      the response envelope under its [resultPath].
    - An [SqsSendMessage] sends its rendered body, and fails without
      sending when a path of the body is absent; with the task-token
      pattern the run then waits for the reviewer, whose answer replaces
      the context (the state declares no [resultPath]).
    - A [Pass] stores its literal result under its [resultPath].
    - A [Choice] evaluates its rules on the context filtered by its
      [inputPath], and hands that filtered context on to the branch taken.
      It fails when a rule it evaluates has no variable to compare, and
      when no rule holds and there is no [otherwise]. *)
Definition step (w : World) (c : Config) : Outcome :=
  match definition (at_state c) with
  | LambdaInvoke f rp next =>
      let response := lambda w f (calls f (trace c)) (ctx c) in
      let t := trace c ++ [Invoked f (ctx c)] in
      match set_path rp (JObj [("Payload", response)]) (ctx c) with
      | Some j => goto next j t
      | None => Fault t (ctx c)
      end
  | SqsSendMessage q body wait next =>
      let token := sent queue (trace c) in
      match render body (ctx c) token with
      | Some msg =>
          let t := trace c ++ [Sent q (at_state c) msg] in
          if wait then
            match reviewer w token msg with
            | Some j => goto next j t
            | None => Waiting t (ctx c)
            end
          else goto next (ctx c) t
      | None => Fault (trace c) (ctx c)
      end
  | Pass result rp next =>
      match set_path rp result (ctx c) with
      | Some j => goto next j (trace c)
      | None => Fault (trace c) (ctx c)
      end
  | Choice ip rules otherwise =>
      let input :=
        match ip with Some p => get_path p (ctx c) | None => Some (ctx c) end in
      match input with
      | Some j =>
          match choose rules otherwise j with
          | Some s => Next {| at_state := s; ctx := j; trace := trace c |}
          | None => Fault (trace c) j
          end
      | None => Fault (trace c) (ctx c)
      end
  end.

Inductive Result : Type :=
| Running (c : Config)
| Completed (t : list Event) (final : json)
| Suspended (t : list Event) (final : json)
| Failed (t : list Event) (final : json).

(** [run w n c] executes at most [n] states from [c]; [Running c'] means
    that after exactly [n] states the run stands at [c']. *)
Fixpoint run (w : World) (fuel : nat) (c : Config) : Result :=
  match fuel with
  | O => Running c
  | S n =>
      match step w c with
      | Next c' => run w n c'
      | Done t j => Completed t j
      | Waiting t j => Suspended t j
      | Fault t j => Failed t j
      end
  end.

Definition trace_of (r : Result) : list Event :=
  match r with
  | Running c => trace c
  | Completed t _ | Suspended t _ | Failed t _ => t
  end.

(** A run starts at the start state with the input of the execution and
    an empty trace. *)
Definition init (input : json) : Config :=
  {| at_state := startState; ctx := input; trace := [] |}.

(** ** The transition relation of the graph, without data *)

Definition successors (s : StateId) : list StateId :=
  match definition s with
  | LambdaInvoke _ _ next | SqsSendMessage _ _ _ next | Pass _ _ next =>
      match next with Some n => [n] | None => [] end
  | Choice _ rules otherwise =>
      map snd rules ++ match otherwise with Some n => [n] | None => [] end
  end.

Definition edge (a b : StateId) : Prop := In b (successors a).

(** The states of the autocorrect loop. *)
Definition autocorrect_loop : list StateId :=
  [iterator; is_count_reached; generate_alternate_query].

End Workflow.

Module Construct.

(** ** Set-up code of the constructor

    The constructor is a sequence of statements on [this] that may throw.
    It is embedded in a state-and-exception monad: the state holds the
    fields of [this] that the database code assigns and the ids of the
    resources created so far, in order. *)

Inductive DatabaseType : Type := AURORA | RDS.

Inductive DbName : Type := MYSQL | POSTGRESQL.

(** The members of [TextToSqlProps] the set-up code looks at.  Objects and
    property bags handed over by the caller are identified by a name; an
    optional member that is left out is [None]. *)
Record TextToSqlProps : Type := {
  existingVpc : option string;
  existingSubnetGroup : option string;
  existingLambdaSecurityGroup : option string;
  existingDBSecurityGroup : option string;
  dbName : DbName;
  databaseType : option DatabaseType;
  existingAuroraDbCluster : option string;
  databaseClusterProps : option string;
  databaseInstanceProps : option string;
  dbPort : option Z;
  existingRdsDbInstance : option string;
  configAssetsBucketProps : option string;
  existingconfigAssetsBucketObj : option string
}.

Inductive DatabaseCluster : Type :=
| cluster_existing (object : string)
| cluster_from_props (id : string) (props : string)
| cluster_aurora_mysql (id : string) (port : Z).

Inductive DatabaseInstance : Type :=
| instance_existing (object : string)
| instance_from_props (id : string) (props : string)
| instance_mysql (id : string) (port : Z).

Inductive Secret : Type :=
| secret_created (id : string) (secretName : string).

Record TextToSql : Type := {
  databaseCluster : option DatabaseCluster;
  dbInstance : option DatabaseInstance;
  secret : option Secret;
  resources : list string
}.

(** [this] right after [super(scope, id)]. *)
Definition fresh : TextToSql :=
  {| databaseCluster := None; dbInstance := None; secret := None;
     resources := [] |}.

Inductive Thrown : Type :=
| Error (message : string)
| TypeError (message : string).

Definition M (A : Type) : Type := TextToSql -> (Thrown + A) * TextToSql.

Definition ret {A} (a : A) : M A := fun this => (inr a, this).

Definition bind {A B} (m : M A) (k : A -> M B) : M B :=
  fun this =>
    match m this with
    | (inr a, this') => k a this'
    | (inl e, this') => (inl e, this')
    end.

Definition throw {A} (e : Thrown) : M A := fun this => (inl e, this).

Notation "x <- m ;; k" := (bind m (fun x => k))
  (at level 61, m at next level, right associativity).
Notation "m ;; k" := (bind m (fun _ => k))
  (at level 61, right associativity).

(** [new X(this, id, ...)]: the resource joins the construct tree. *)
Definition create (id : string) : M unit :=
  fun this =>
    (inr tt,
     {| databaseCluster := databaseCluster this;
        dbInstance := dbInstance this;
        secret := secret this;
        resources := resources this ++ [id] |}).

Definition set_databaseCluster (c : DatabaseCluster) : M unit :=
  fun this =>
    (inr tt,
     {| databaseCluster := Some c; dbInstance := dbInstance this;
        secret := secret this; resources := resources this |}).

Definition set_dbInstance (i : DatabaseInstance) : M unit :=
  fun this =>
    (inr tt,
     {| databaseCluster := databaseCluster this; dbInstance := Some i;
        secret := secret this; resources := resources this |}).

Definition set_secret (s : Secret) : M unit :=
  fun this =>
    (inr tt,
     {| databaseCluster := databaseCluster this;
        dbInstance := dbInstance this;
        secret := Some s; resources := resources this |}).

(** Truthiness of an optional object. *)
Definition given {A} (o : option A) : bool :=
  match o with Some _ => true | None => false end.

Definition validateDbProps (props : TextToSqlProps) : M unit :=
  (if given (existingAuroraDbCluster props) && given (databaseClusterProps props)
   then throw (Error
     "Only one of existingAuroraDbCluster or databaseClusterProps can be set at a time.")
   else ret tt) ;;
  (if given (databaseInstanceProps props) && given (existingRdsDbInstance props)
   then throw (Error
     "Only one of databaseInstanceProps or existingRdsDbInstance can be set at a time.")
   else ret tt) ;;
  (if given (existingAuroraDbCluster props) && given (existingRdsDbInstance props)
   then throw (Error
     "Only one of existingAuroraDbCluster or existingRdsDbInstance can be set at a time.")
   else ret tt).

Definition createSecret (stage : string) : M Secret :=
  create ("AuroraSecret" ++ stage)%string ;;
  ret (secret_created ("AuroraSecret" ++ stage)%string "texttosqldbsecret").

Definition createRdsInstance (props : TextToSqlProps) (port : Z)
  : M DatabaseInstance :=
  match dbName props with
  | MYSQL =>
      create "MysqlRdsInstance" ;;
      ret (instance_mysql "MysqlRdsInstance" port)
  | _ => throw (Error "Invalid database name")
  end.

Definition createAuroraCluster (props : TextToSqlProps) (port : Z)
  : M DatabaseCluster :=
  match dbName props with
  | MYSQL =>
      create "AuroraCluster" ;;
      ret (cluster_aurora_mysql "AuroraCluster" port)
  | _ => throw (Error "Invalid database name")
  end.

(** [props.dbPort ? props.dbPort : 3306] *)
Definition dbPort_of (props : TextToSqlProps) : Z :=
  match dbPort props with
  | Some p => if Z.eqb p 0 then 3306%Z else p
  | None => 3306%Z
  end.

(** The block "assign existing db or db props". *)
Definition selectDatabase (stage : string) (props : TextToSqlProps) : M unit :=
  match existingAuroraDbCluster props with
  | Some c => set_databaseCluster (cluster_existing c)
  | None =>
  match databaseClusterProps props with
  | Some p =>
      create ("AuroraCluster" ++ stage)%string ;;
      set_databaseCluster (cluster_from_props ("AuroraCluster" ++ stage)%string p)
  | None =>
  match existingRdsDbInstance props with
  | Some i => set_dbInstance (instance_existing i)
  | None =>
  match databaseInstanceProps props with
  | Some p =>
      create ("AuroraInstance" ++ stage)%string ;;
      set_dbInstance (instance_from_props ("AuroraInstance" ++ stage)%string p)
  | None =>
      s <- createSecret stage ;;
      set_secret s ;;
      match databaseType props with
      | Some RDS =>
          i <- createRdsInstance props (dbPort_of props) ;;
          set_dbInstance i
      | _ =>
          c <- createAuroraCluster props (dbPort_of props) ;;
          set_databaseCluster c
      end
  end end end end.

(** [this.secret.secretArn] and [this.secret.grantRead(...)]: reading a
    member of [this.secret], which throws when the field was never
    assigned. *)
Definition secret_member (name : string) : M Secret :=
  fun this =>
    match secret this with
    | Some s => (inr s, this)
    | None =>
        (inl (TypeError
           ("Cannot read properties of undefined (reading '" ++ name ++ "')")%string),
         this)
    end.

(** The constructor from [validateDbProps] on.  [stage] is the suffix the
    base class keeps in [this.stage]. *)
Definition constructor (stage : string) (props : TextToSqlProps) : M unit :=
  validateDbProps props ;;
  (if given (existingVpc props) && given (existingSubnetGroup props)
   then ret tt
   else create "Vpc" ;; create "SubnetGroup") ;;
  (if given (existingLambdaSecurityGroup props) then ret tt
   else create "lambdaSecurityGroup") ;;
  (if given (existingDBSecurityGroup props) then ret tt
   else create "DBSecurityGroup") ;;
  create "textToSqlConstructVPCGroup" ;;
  create "textToSqlConstructRole" ;;
  create "FlowLog" ;;
  selectDatabase stage props ;;
  (if given (existingconfigAssetsBucketObj props) then ret tt
   else create "resourceFactory" ;; create "configBucket") ;;
  create "queryConfigFunctionRole" ;;
  create ("reformulateQuestionFunction" ++ stage)%string ;;
  secret_member "secretArn" ;;
  create ("queryGeneratorFunction" ++ stage)%string ;;
  secret_member "secretArn" ;;
  create ("queryExecutorFunctionName" ++ stage)%string ;;
  create ("autocorrectQueryFunction" ++ stage)%string ;;
  create "userFeedbackQueue" ;;
  create "outputQueue" ;;
  secret_member "grantRead" ;;
  secret_member "grantRead" ;;
  create "test-eventbridge-stepfunctions-stack".

(** Which of the two database fields are assigned. *)
Definition assigned_fields (this : TextToSql) : nat :=
  (if given (databaseCluster this) then 1 else 0)
  + (if given (dbInstance this) then 1 else 0).

End Construct.

Import Workflow.

(** ** Vocabulary for the statements below *)

(** A condition that compares one variable with a literal string or a
    literal boolean. *)
Definition equals_literal (c : Condition) : bool :=
  match c with
  | stringEquals _ _ | booleanEquals _ _ => true
  | _ => false
  end.

Definition is_choice (s : StateId) : bool :=
  match definition s with Choice _ _ _ => true | _ => false end.

(** The branch points of the graph. *)
Definition choice_states : list StateId := filter is_choice all_states.

(** What a run has done when it stands at a state: numbers of
    GenerateQuery, ExecuteQuery and Iterate invocations and of published
    messages so far. *)
Definition counts_inv (c : Config) : Prop :=
  let g := calls queryGeneratorFunction (trace c) in
  let e := calls queryExecutorFunction (trace c) in
  let i := calls autocorrectQueryFunction (trace c) in
  let p := sent outputQueue (trace c) in
  match at_state c with
  | reformulate_question
  | is_feedback_req_on_reformualted_question
  | get_feedback_on_reformulated_question
  | generate_query_path_one
  | generate_query_path_two => g = 0 /\ e = 0 /\ i = 0 /\ p = 0
  | is_feedback_req_on_generated_query_path_one
  | is_feedback_req_on_generated_query_path_two
  | get_feedback_on_generated_query_path_one
  | get_feedback_on_generated_query_path_two
  | is_query_execution_req
  | execute_query => g = 1 /\ e = 0 /\ i = 0 /\ p = 0
  | is_autocorrect_required
  | configure_count => g = 1 /\ e = 1 /\ i = 0 /\ p = 0
  | iterator => g = 1 + i /\ e = 1 /\ p = 0
  | is_count_reached
  | generate_alternate_query => g = i /\ 1 <= i /\ e = 1 /\ p = 0
  | publish_query_result => 1 <= g /\ e <= 1 /\ p = 0
  end.

(** The members of the message [publish_query_result] sends. *)
Definition publish_fields : list (string * TaskInput) :=
  [ ("result", fromJsonPathAt ["queryStatus"; "Payload"; "result"]);
    ("user_question", fromJsonPathAt ["user_question"]);
    ("question_unique_id", fromJsonPathAt ["question_unique_id"]) ].

(** The body of that message from a context, if the context has the three
    paths. *)
Definition publish_body (j : json) : option Message :=
  render publish_fields j 0.

(** The counter [configure_count] stores. *)
Definition initial_counter : json :=
  JObj [("count", JNum 3); ("index", JNum 0); ("step", JNum 1)].

(** The envelope under which the response of a Lambda function is stored. *)
Definition envelope (response : json) : json := JObj [("Payload", response)].

(** A run is in scenario C when it stands at the autocorrect branch point
    with the status ["QUERY_ERROR"] returned by ExecuteQuery, and Iterate
    answers [continue = true] to its first invocation and [continue = false]
    to its second. *)
Definition scenario_C (w : World) (input : json) (n : nat) (c : Config)
  : Prop :=
  run w n (init input) = Running c
  /\ at_state c = is_autocorrect_required
  /\ get_path ["queryStatus"; "Payload"; "status"] (ctx c)
     = Some (JStr "QUERY_ERROR")
  /\ (forall x, get_path ["continue"] (lambda w autocorrectQueryFunction 0 x)
                = Some (JBool true))
  /\ (forall x, get_path ["continue"] (lambda w autocorrectQueryFunction 1 x)
                = Some (JBool false)).

(** *** Concrete worlds used as examples *)

Definition example_input : json :=
  JObj [ ("user_question", JStr "how many orders were placed in May?");
         ("question_unique_id", JStr "q-1") ].

(** Answers of the four functions in an example run: the strategies the
    functions report, the status of the n-th ExecuteQuery, and the
    [continue] flag of the n-th Iterate. *)
Definition example_world (semantic validation execution : string)
  (status : nat -> string) (continue : nat -> bool) : World :=
  {| lambda := fun f n x =>
       match f with
       | reformulateQuestionFunction =>
           JObj [ ("user_question", JStr "how many orders were placed in May?");
                  ("question_unique_id", JStr "q-1");
                  ("reformulated_user_question", JStr "count of orders in May");
                  ("semantic_layer_strategy", JStr semantic) ]
       | queryGeneratorFunction =>
           JObj [ ("validated_sql_query", JStr "SELECT COUNT(*) FROM orders");
                  ("sql_validation_strategy", JStr validation);
                  ("execute_sql_strategy", JStr execution) ]
       | queryExecutorFunction =>
           JObj [ ("status", JStr (status n)); ("result", JStr "42") ]
       | autocorrectQueryFunction =>
           JObj [ ("continue", JBool (continue n)) ]
       end;
     reviewer := fun _ _ => None |}.

(** Scenario B: execution disabled.  No state writes [queryStatus], and
    Reformulate's response has none. *)
Definition world_B : World :=
  example_world "automatic" "automatic" "disabled"
    (fun _ => "SUCCESS") (fun _ => false).

(** Scenario C: the first execution fails, Iterate continues once. *)
Definition world_C : World :=
  example_world "automatic" "automatic" "enabled"
    (fun n => match n with O => "QUERY_ERROR" | _ => "SUCCESS" end)
    (fun n => match n with O => true | _ => false end).

(** The configuration a run stands at after [n] states (the start
    configuration if it has stopped before). *)
Definition config_after (w : World) (n : nat) (input : json) : Config :=
  match run w n (init input) with
  | Running c => c
  | _ => init input
  end.

(** The states a run can still visit once the first branch point has
    taken its [otherwise] branch. *)
Definition path_two_state (s : StateId) : bool :=
  match s with
  | reformulate_question
  | is_feedback_req_on_reformualted_question
  | get_feedback_on_reformulated_question
  | generate_query_path_one
  | is_feedback_req_on_generated_query_path_one
  | get_feedback_on_generated_query_path_one => false
  | _ => true
  end.

(** The states past the first branch point. *)
Definition past_first_branch (s : StateId) : bool :=
  match s with
  | reformulate_question
  | is_feedback_req_on_reformualted_question => false
  | _ => true
  end.

(** Scenario A: every strategy automatic, execution enabled and
    successful. *)
Definition world_A : World :=
  example_world "automatic" "automatic" "enabled"
    (fun _ => "SUCCESS") (fun _ => false).

(** Modelled from the spec: the Iterate unit, that is the code of the
    Lambda function [autocorrectQueryFunction] (asset directory
    [lambda/aws-text-to-sql/query_autocorrect]), which is not among the
    sources.  The spec has it "increment index by step and set
    continue = (index < count)", and has [iterator.Payload] hold
    [continue], [count], [index] and [step], initialised at loop entry and
    then updated by each Iterate call.  The counter is therefore read from
    [iterator.Payload] when an earlier Iterate has stored it there, and from
    [iterator], where [configure_count] puts it, otherwise.  Without a
    readable counter the unit does not ask for another round. *)
Definition read_counter (input : json) : option (Z * Z * Z) :=
  let counter :=
    match get_path ["iterator"; "Payload"] input with
    | Some p => Some p
    | None => get_path ["iterator"] input
    end in
  match counter with
  | Some c =>
      match get_path ["index"] c, get_path ["step"] c, get_path ["count"] c with
      | Some (JNum i), Some (JNum s), Some (JNum n) => Some (i, s, n)
      | _, _, _ => None
      end
  | None => None
  end.

Definition Iterate (input : json) : json :=
  match read_counter input with
  | Some (i, s, n) =>
      JObj [ ("index", JNum (i + s)); ("step", JNum s); ("count", JNum n);
             ("continue", JBool (Z.ltb (i + s) n)) ]
  | None => JObj [ ("continue", JBool false) ]
  end.

(** The counter after Iterate has brought the index to [i]. *)
Definition counter_value (i : Z) : json :=
  JObj [ ("index", JNum i); ("step", JNum 1); ("count", JNum 3);
         ("continue", JBool (Z.ltb i 3)) ].

(** What holds of the counter while a run is inside the loop or on its way
    from the loop to Publish. *)
Definition loop_inv (c : Config) : Prop :=
  exists ms, ctx c = JObj ms /\
    match at_state c with
    | iterator =>
        member "iterator" ms = Some initial_counter
        \/ exists i, (1 <= i < 3)%Z
                     /\ member "iterator" ms = Some (envelope (counter_value i))
    | generate_alternate_query =>
        exists i, (1 <= i < 3)%Z
                  /\ member "iterator" ms = Some (envelope (counter_value i))
    | is_count_reached | publish_query_result =>
        exists i, (1 <= i <= 3)%Z
                  /\ member "iterator" ms = Some (envelope (counter_value i))
    | _ => False
    end.

(** A world whose Iterate is the unit above. *)
Definition with_Iterate (w : World) : World :=
  {| lambda := fun f n x =>
       match f with
       | autocorrectQueryFunction => Iterate x
       | _ => lambda w f n x
       end;
     reviewer := reviewer w |}.

(** Every execution fails with QUERY_ERROR; Iterate counts. *)
Definition world_D : World :=
  with_Iterate
    (example_world "automatic" "automatic" "enabled"
       (fun _ => "QUERY_ERROR") (fun _ => false)).

(** ** Vocabulary for the set-up code *)

(** Both members of one of the three forbidden pairings are supplied. *)
Definition conflicting (props : Construct.TextToSqlProps) : bool :=
  (Construct.given (Construct.existingAuroraDbCluster props)
   && Construct.given (Construct.databaseClusterProps props))
  || (Construct.given (Construct.existingRdsDbInstance props)
      && Construct.given (Construct.databaseInstanceProps props))
  || (Construct.given (Construct.existingAuroraDbCluster props)
      && Construct.given (Construct.existingRdsDbInstance props)).

(** Props with only the required members. *)
Definition minimal_props (name : Construct.DbName) : Construct.TextToSqlProps :=
  {| Construct.existingVpc := None;
     Construct.existingSubnetGroup := None;
     Construct.existingLambdaSecurityGroup := None;
     Construct.existingDBSecurityGroup := None;
     Construct.dbName := name;
     Construct.databaseType := None;
     Construct.existingAuroraDbCluster := None;
     Construct.databaseClusterProps := None;
     Construct.databaseInstanceProps := None;
     Construct.dbPort := None;
     Construct.existingRdsDbInstance := None;
     Construct.configAssetsBucketProps := None;
     Construct.existingconfigAssetsBucketObj := None |}.

(** Props that hand over an existing Aurora cluster. *)
Definition props_existing_cluster : Construct.TextToSqlProps :=
  {| Construct.existingVpc := None;
     Construct.existingSubnetGroup := None;
     Construct.existingLambdaSecurityGroup := None;
     Construct.existingDBSecurityGroup := None;
     Construct.dbName := Construct.MYSQL;
     Construct.databaseType := None;
     Construct.existingAuroraDbCluster := Some "myCluster";
     Construct.databaseClusterProps := None;
     Construct.databaseInstanceProps := None;
     Construct.dbPort := None;
     Construct.existingRdsDbInstance := None;
     Construct.configAssetsBucketProps := None;
     Construct.existingconfigAssetsBucketObj := None |}.

(** Props that hand over an existing cluster and cluster properties. *)
Definition props_cluster_twice : Construct.TextToSqlProps :=
  {| Construct.existingVpc := None;
     Construct.existingSubnetGroup := None;
     Construct.existingLambdaSecurityGroup := None;
     Construct.existingDBSecurityGroup := None;
     Construct.dbName := Construct.MYSQL;
     Construct.databaseType := None;
     Construct.existingAuroraDbCluster := Some "myCluster";
     Construct.databaseClusterProps := Some "myClusterProps";
     Construct.databaseInstanceProps := None;
     Construct.dbPort := None;
     Construct.existingRdsDbInstance := None;
     Construct.configAssetsBucketProps := None;
     Construct.existingconfigAssetsBucketObj := None |}.

(** A topological rank of the graph once the back edge of the loop
    ([generate_alternate_query] to [iterator]) is put aside. *)
Definition rank (s : StateId) : nat :=
  match s with
  | reformulate_question => 0
  | is_feedback_req_on_reformualted_question => 1
  | get_feedback_on_reformulated_question => 2
  | generate_query_path_one => 3
  | generate_query_path_two => 3
  | is_feedback_req_on_generated_query_path_one => 4
  | is_feedback_req_on_generated_query_path_two => 4
  | get_feedback_on_generated_query_path_one => 5
  | get_feedback_on_generated_query_path_two => 5
  | is_query_execution_req => 6
  | execute_query => 7
  | is_autocorrect_required => 8
  | configure_count => 9
  | iterator => 10
  | is_count_reached => 11
  | generate_alternate_query => 12
  | publish_query_result => 13
  end.

(** Iterate always asks for another round: the loop is then never left. *)
Definition world_E : World :=
  example_world "automatic" "automatic" "enabled"
    (fun _ => "QUERY_ERROR") (fun _ => true).

(** ** Vocabulary for further properties of runs *)

(** How the numbers of Reformulate, GenerateQuery, ExecuteQuery and
    Iterate invocations stand to each other when a run is about to
    publish: either the loop was never entered, or it was, and every
    Iterate but the last was followed by one more GenerateQuery. *)
Definition publish_counts (t : list Event) : Prop :=
  let g := calls queryGeneratorFunction t in
  let e := calls queryExecutorFunction t in
  let i := calls autocorrectQueryFunction t in
  calls reformulateQuestionFunction t = 1
  /\ ((i = 0 /\ g = 1 /\ e <= 1) \/ (1 <= i /\ g = i /\ e = 1)).

Definition tally_inv (c : Config) : Prop :=
  counts_inv c
  /\ (match at_state c with
      | reformulate_question => calls reformulateQuestionFunction (trace c) = 0
      | _ => calls reformulateQuestionFunction (trace c) = 1
      end)
  /\ (at_state c = publish_query_result -> publish_counts (trace c)).

(** The feedback requests a run has sent when it stands at a state:
    [f1] on the reformulated question, [fa] and [fb] on the generated
    query of path one and of path two. *)
Definition feedback_inv (c : Config) : Prop :=
  let f1 := sent_from get_feedback_on_reformulated_question (trace c) in
  let fa := sent_from get_feedback_on_generated_query_path_one (trace c) in
  let fb := sent_from get_feedback_on_generated_query_path_two (trace c) in
  sent queue (trace c) = f1 + fa + fb
  /\ match at_state c with
     | reformulate_question
     | is_feedback_req_on_reformualted_question
     | get_feedback_on_reformulated_question
     | generate_query_path_two
     | is_feedback_req_on_generated_query_path_two
     | get_feedback_on_generated_query_path_two => f1 = 0 /\ fa = 0 /\ fb = 0
     | generate_query_path_one
     | is_feedback_req_on_generated_query_path_one
     | get_feedback_on_generated_query_path_one => f1 = 1 /\ fa = 0 /\ fb = 0
     | _ => (f1 = 1 /\ fa <= 1 /\ fb = 0) \/ (f1 = 0 /\ fa = 0 /\ fb <= 1)
     end.

(** What the feedback requests of a trace never exceed. *)
Definition feedback_bounds (t : list Event) : Prop :=
  let f1 := sent_from get_feedback_on_reformulated_question t in
  let fa := sent_from get_feedback_on_generated_query_path_one t in
  let fb := sent_from get_feedback_on_generated_query_path_two t in
  sent queue t = f1 + fa + fb
  /\ f1 <= 1 /\ fa <= f1 /\ fb + f1 <= 1.

(** The three states that ask the reviewer. *)
Definition feedback_states : list StateId :=
  [ get_feedback_on_reformulated_question;
    get_feedback_on_generated_query_path_one;
    get_feedback_on_generated_query_path_two ].

(** Two contexts carry the same question and the same correlation id. *)
Definition same_question (a b : json) : Prop :=
  get_path ["user_question"] a = get_path ["user_question"] b
  /\ get_path ["question_unique_id"] a = get_path ["question_unique_id"] b.

(** While the reviewer has not been asked, the context keeps the question
    of Reformulate's response [r] to the execution input. *)
Definition question_inv (input r : json) (c : Config) : Prop :=
  match at_state c with
  | reformulate_question => ctx c = input /\ trace c = []
  | is_feedback_req_on_reformualted_question =>
      get_path ["queryConfig"; "Payload"] (ctx c) = Some r
      /\ sent queue (trace c) = 0
  | _ => sent queue (trace c) = 0 -> same_question (ctx c) r
  end.

(** A reviewer who approves by sending the request body back as the new
    context. *)
Definition echo_reviewer (w : World) : World :=
  {| lambda := lambda w;
     reviewer := fun _ msg => Some (JObj msg) |}.

(** Reformulate and GenerateQuery both ask for human feedback, and the
    reviewer answers. *)
Definition world_H : World :=
  echo_reviewer
    (example_world "human" "human" "enabled" (fun _ => "SUCCESS")
       (fun _ => false)).

(** What a completed run has done. *)
Definition completed_outcome (o : Outcome) : Prop :=
  match o with
  | Done t j =>
      (exists t0 body,
         t = t0 ++ [Sent outputQueue publish_query_result body]
         /\ publish_body j = Some body
         /\ sent outputQueue t0 = 0)
      /\ publish_counts t
  | _ => True
  end.

(** How many states a run can have passed when it stands at a state,
    not counting the rounds of the loop. *)
Definition position (s : StateId) : nat :=
  match s with
  | reformulate_question => 0
  | is_feedback_req_on_reformualted_question => 1
  | get_feedback_on_reformulated_question => 2
  | generate_query_path_one => 3
  | generate_query_path_two => 3
  | is_feedback_req_on_generated_query_path_one => 4
  | is_feedback_req_on_generated_query_path_two => 4
  | get_feedback_on_generated_query_path_one => 5
  | get_feedback_on_generated_query_path_two => 5
  | is_query_execution_req => 6
  | execute_query => 7
  | is_autocorrect_required => 8
  | configure_count => 9
  | iterator => 10
  | is_count_reached => 8
  | generate_alternate_query => 9
  | publish_query_result => 9
  end.

(** A run that has passed [n] states cannot have got further than its
    state and its rounds of the loop allow. *)
Definition length_inv (n : nat) (c : Config) : Prop :=
  n <= position (at_state c)
       + 3 * calls autocorrectQueryFunction (trace c).

(** The members of the request [get_feedback_on_reformulated_question]
    sends. *)
Definition reformulated_question_body : list (string * TaskInput) :=
  [ ("message",
     literal "Following is the reformulated question. Do you agree with the new question?");
    ("reformualted_question", fromJsonPathAt ["reformulated_user_question"]);
    ("user_question", fromJsonPathAt ["user_question"]);
    ("question_unique_id", fromJsonPathAt ["question_unique_id"]);
    ("TaskToken", taskToken) ].

(** Props that name a cluster by its properties and an instance by its
    properties: no pairing checked by [validateDbProps] is violated. *)
Definition props_cluster_and_instance_props : Construct.TextToSqlProps :=
  {| Construct.existingVpc := Some "myVpc";
     Construct.existingSubnetGroup := None;
     Construct.existingLambdaSecurityGroup := None;
     Construct.existingDBSecurityGroup := None;
     Construct.dbName := Construct.MYSQL;
     Construct.databaseType := Some Construct.RDS;
     Construct.existingAuroraDbCluster := None;
     Construct.databaseClusterProps := Some "myClusterProps";
     Construct.databaseInstanceProps := Some "myInstanceProps";
     Construct.dbPort := None;
     Construct.existingRdsDbInstance := None;
     Construct.configAssetsBucketProps := None;
     Construct.existingconfigAssetsBucketObj := None |}.

(** The caller names no database of its own. *)
Definition no_database_option (props : Construct.TextToSqlProps) : Prop :=
  Construct.existingAuroraDbCluster props = None
  /\ Construct.databaseClusterProps props = None
  /\ Construct.existingRdsDbInstance props = None
  /\ Construct.databaseInstanceProps props = None.

(** The constructor has returned rather than thrown. *)
Definition returns (r : (Construct.Thrown + unit) * Construct.TextToSql) : bool :=
  match fst r with inr _ => true | inl _ => false end.

Definition is_mysql (n : Construct.DbName) : bool :=
  match n with Construct.MYSQL => true | _ => false end.

(** The first two resources of a list are "Vpc" and "SubnetGroup". *)
Definition starts_with_vpc (created : list string) : bool :=
  match created with
  | a :: b :: _ => String.eqb a "Vpc" && String.eqb b "SubnetGroup"
  | _ => false
  end.

(** Once ExecuteQuery has run, the context holds its result under
    [queryStatus.Payload.result] until the run publishes. *)
Definition executed_result (w : World) (t : list Event) (j : json) : Prop :=
  exists x,
    In (Invoked queryExecutorFunction x) t
    /\ get_path ["queryStatus"; "Payload"; "result"] j
       = get_path ["result"] (lambda w queryExecutorFunction 0 x).

Definition result_inv (w : World) (c : Config) : Prop :=
  match at_state c with
  | is_autocorrect_required | configure_count | iterator
  | is_count_reached | generate_alternate_query =>
      executed_result w (trace c) (ctx c)
  | publish_query_result =>
      calls queryExecutorFunction (trace c) = 1 ->
      executed_result w (trace c) (ctx c)
  | _ => calls queryExecutorFunction (trace c) = 0
  end.

(** Reformulate answers with nothing but the strategy. *)
Definition world_bare : World :=
  {| lambda := fun f n x =>
       match f with
       | reformulateQuestionFunction =>
           JObj [ ("semantic_layer_strategy", JStr "human") ]
       | _ => JObj []
       end;
     reviewer := fun _ _ => None |}.

(** * Properties of the workflow graph *)

Section GraphShape.

Lemma edge_rank (a b : StateId) :
  edge a b ->
  rank a < rank b \/ (a = generate_alternate_query /\ b = iterator).
Proof.
  unfold edge; destruct a; simpl; intros H;
    repeat (destruct H as [H | H]; [subst b; simpl; auto; lia | ]);
    contradiction.
Qed.

Lemma edge_from_loop (a b : StateId) :
  In a autocorrect_loop -> edge a b ->
  In b autocorrect_loop \/ b = publish_query_result.
Proof.
  unfold edge, autocorrect_loop; simpl.
  intros [Ha | [Ha | [Ha | []]]]; subst a; simpl;
    intros H; repeat (destruct H as [H | H]; [subst b; auto | ]);
    try contradiction.
Qed.

Lemma rank_top (a b : StateId) : edge a b -> rank a < rank publish_query_result.
Proof.
  unfold edge; destruct a; simpl; intros H; try lia; contradiction.
Qed.

Lemma path_first_edge (a b : StateId) :
  Relation_Operators.clos_trans_n1 _ edge a b -> exists x, edge a x.
Proof. induction 1 as [b H | b c _ _ IH]; [exists b; exact H | exact IH]. Qed.

(** Along any non-empty path the rank grows, unless the path ends inside
    the loop. *)
Lemma path_rank (a b : StateId) :
  Relation_Operators.clos_trans_n1 _ edge a b ->
  rank a < rank b \/ In b autocorrect_loop.
Proof.
  induction 1 as [b H | b c Hbc Hab IH].
  - destruct (edge_rank _ _ H) as [Hr | [_ ->]]; [auto | right; simpl; auto].
  - destruct (edge_rank _ _ Hbc) as [Hr | [_ ->]]; [ | right; simpl; auto].
    destruct IH as [IH | IH]; [left; lia | ].
    destruct (edge_from_loop _ _ IH Hbc) as [Hc | ->]; [auto | ].
    left. destruct (path_first_edge _ _ Hab) as [x Hx].
    eapply rank_top; eassumption.
Qed.

End GraphShape.

Ltac take_edge :=
  unfold edge; simpl;
  ((left; reflexivity) + (right; left; reflexivity)).

Ltac walk n :=
  lazymatch n with
  | O => apply Relation_Operators.rt1n_refl
  | S ?k =>
      (apply Relation_Operators.rt1n_refl)
      + (eapply Relation_Operators.rt1n_trans; [take_edge | walk k])
  end.

Lemma reach_from_start (s : StateId) :
  Relation_Operators.clos_refl_trans_1n _ edge startState s.
Proof. destruct s; unfold startState; solve [walk 11]. Qed.

Lemma reach_publish (s : StateId) :
  Relation_Operators.clos_refl_trans_1n _ edge s publish_query_result.
Proof. destruct s; solve [walk 11]. Qed.

(** C5 as stated fails for an absent field: on a context without
    [queryConfig.Payload.execute_sql_strategy] the execute-gate does not go
    to ExecuteQuery, it fails. *)
Lemma execute_gate_absent_field_refuted :
  ~ (forall w j t,
       get_path ["queryConfig"; "Payload"; "execute_sql_strategy"] j
       <> Some (JStr "disabled") ->
       step w {| at_state := is_query_execution_req; ctx := j; trace := t |}
       = Next {| at_state := execute_query; ctx := j; trace := t |}).
Proof.
  intros H.
  specialize (H {| lambda := fun _ _ x => x; reviewer := fun _ _ => None |}
                (JObj []) []).
  discriminate H. discriminate.
Qed.

(** C5 (amended). The execute-gate ([is_query_execution_req]) has one rule,
    which compares [$.queryConfig.Payload.execute_sql_strategy] with the
    string ["disabled"]; when the member holds that string the next state
    is Publish; when it is present with any other value the next state is
    ExecuteQuery; when it is absent the state fails and no branch is
    taken. *)
Theorem execute_gate_branch :
  definition is_query_execution_req
  = Choice None
      [ (stringEquals ["queryConfig"; "Payload"; "execute_sql_strategy"]
           "disabled", publish_query_result) ]
      (Some execute_query)
  /\ (forall w j t,
        get_path ["queryConfig"; "Payload"; "execute_sql_strategy"] j
        = Some (JStr "disabled") ->
        step w {| at_state := is_query_execution_req; ctx := j; trace := t |}
        = Next {| at_state := publish_query_result; ctx := j; trace := t |})
  /\ (forall w j t v,
        get_path ["queryConfig"; "Payload"; "execute_sql_strategy"] j
        = Some v ->
        v <> JStr "disabled" ->
        step w {| at_state := is_query_execution_req; ctx := j; trace := t |}
        = Next {| at_state := execute_query; ctx := j; trace := t |})
  /\ (forall w j t,
        get_path ["queryConfig"; "Payload"; "execute_sql_strategy"] j = None ->
        step w {| at_state := is_query_execution_req; ctx := j; trace := t |}
        = Fault t j).
Proof.
  split; [reflexivity | split; [ | split]]; intros w j t.
  - intros H. unfold step, choose; cbn [at_state definition ctx trace].
    cbn [first_match eval]. rewrite H. reflexivity.
  - intros v H Hne. unfold step, choose; cbn [at_state definition ctx trace].
    cbn [first_match eval]. rewrite H.
    destruct v as [| | | s |]; try reflexivity.
    unfold json_str_eqb. destruct (String.eqb_spec s "disabled") as [-> | Hs].
    + contradiction Hne; reflexivity.
    + reflexivity.
  - intros H. unfold step, choose; cbn [at_state definition ctx trace].
    cbn [first_match eval]. rewrite H. reflexivity.
Qed.

Lemma execute_gate_branch_witness :
  step world_B
    {| at_state := is_query_execution_req;
       ctx := JObj [("queryConfig",
                     envelope (JObj [("execute_sql_strategy", JStr "disabled")]))];
       trace := [] |}
  = Next {| at_state := publish_query_result;
            ctx := JObj [("queryConfig",
                          envelope (JObj [("execute_sql_strategy",
                                           JStr "disabled")]))];
            trace := [] |}
  /\ step world_B
       {| at_state := is_query_execution_req;
          ctx := JObj [("queryConfig",
                        envelope (JObj [("execute_sql_strategy",
                                         JStr "enabled")]))];
          trace := [] |}
     = Next {| at_state := execute_query;
               ctx := JObj [("queryConfig",
                             envelope (JObj [("execute_sql_strategy",
                                              JStr "enabled")]))];
               trace := [] |}
  /\ step world_B
       {| at_state := is_query_execution_req; ctx := JObj []; trace := [] |}
     = Fault [] (JObj []).
Proof.
  split; [ | split].
  - apply (proj1 (proj2 execute_gate_branch)). reflexivity.
  - apply (proj1 (proj2 (proj2 execute_gate_branch)) _ _ _ (JStr "enabled")).
    + reflexivity.
    + discriminate.
  - apply (proj2 (proj2 (proj2 execute_gate_branch))). reflexivity.
Defined.

(** C6. Every branch point of the graph has exactly one rule, the rule
    compares one variable with a literal string or a literal boolean (no
    combined condition, no range, no pattern), a comparison holds exactly
    when the variable is present with that very value, and every branch
    point declares an [otherwise] branch. *)
Theorem branch_conditions_shape :
  choice_states
  = [ is_autocorrect_required; is_count_reached;
      is_feedback_req_on_reformualted_question;
      is_feedback_req_on_generated_query_path_two;
      is_feedback_req_on_generated_query_path_one;
      is_query_execution_req ]
  /\ (forall s,
        match definition s with
        | Choice _ rules other =>
            (exists c d, rules = [(c, d)] /\ equals_literal c = true)
            /\ (exists d, other = Some d)
        | _ => True
        end)
  /\ (forall v lit j,
        eval (stringEquals v lit) j = Some true
        <-> get_path v j = Some (JStr lit))
  /\ (forall v lit j,
        eval (booleanEquals v lit) j = Some true
        <-> get_path v j = Some (JBool lit)).
Proof.
  split; [reflexivity | split; [ | split]].
  - destruct s; simpl; auto; split; eauto.
  - intros v lit j; simpl; unfold json_str_eqb.
    destruct (get_path v j) as [[| | | s |] |]; try (split; [discriminate | congruence]).
    split.
    + intros H. injection H as H. apply String.eqb_eq in H. congruence.
    + intros H. injection H as ->. rewrite String.eqb_refl. reflexivity.
  - intros v lit j; simpl; unfold json_bool_eqb.
    destruct (get_path v j) as [[| b | | |] |]; try (split; [discriminate | congruence]).
    split.
    + intros H. injection H as H. apply Bool.eqb_prop in H. congruence.
    + intros H. injection H as ->. rewrite Bool.eqb_reflx. reflexivity.
Qed.

(** C7. The graph starts at Reformulate, which no transition enters; every
    state is reachable from it; Publish is reachable from every state and
    is the only state without a successor; and a state lies on a cycle
    exactly when it is one of the three states of the autocorrect loop. *)
Theorem graph_topology :
  startState = reformulate_question
  /\ (forall s, ~ edge s startState)
  /\ (forall s, Relation_Operators.clos_refl_trans _ edge startState s)
  /\ (forall s, Relation_Operators.clos_refl_trans _ edge s publish_query_result)
  /\ (forall s, successors s = [] <-> s = publish_query_result)
  /\ (forall s, Relation_Operators.clos_trans _ edge s s
                <-> In s autocorrect_loop).
Proof.
  split; [reflexivity | ].
  split; [intros s; unfold edge; destruct s; simpl; intuition discriminate | ].
  split; [intros s; apply Operators_Properties.clos_rt_rt1n_iff,
            reach_from_start | ].
  split; [intros s; apply Operators_Properties.clos_rt_rt1n_iff,
            reach_publish | ].
  split; [intros s; destruct s; simpl; split; try discriminate; auto | ].
  intros s; split.
  - intros H. apply Operators_Properties.clos_trans_tn1_iff in H.
    destruct (path_rank _ _ H) as [Hlt | Hin]; [lia | exact Hin].
  - assert (E1 : edge iterator is_count_reached) by (unfold edge; simpl; auto).
    assert (E2 : edge is_count_reached generate_alternate_query)
      by (unfold edge; simpl; auto).
    assert (E3 : edge generate_alternate_query iterator)
      by (unfold edge; simpl; auto).
    unfold autocorrect_loop; simpl.
    intros [<- | [<- | [<- | []]]].
    + eapply Relation_Operators.t_trans; [apply Relation_Operators.t_step, E1 | ].
      eapply Relation_Operators.t_trans; apply Relation_Operators.t_step; eassumption.
    + eapply Relation_Operators.t_trans; [apply Relation_Operators.t_step, E2 | ].
      eapply Relation_Operators.t_trans; apply Relation_Operators.t_step; eassumption.
    + eapply Relation_Operators.t_trans; [apply Relation_Operators.t_step, E3 | ].
      eapply Relation_Operators.t_trans; apply Relation_Operators.t_step; eassumption.
Qed.

(** * Properties of runs *)

Arguments get_path : simpl never.
Arguments set_path : simpl never.
Arguments json_str_eqb : simpl never.
Arguments json_bool_eqb : simpl never.
Arguments render : simpl never.

Section Runs.

Variable w : World.

Lemma calls_snoc (f : Fn) (t : list Event) (e : Event) :
  calls f (t ++ [e]) = calls f t + (if is_call f e then 1 else 0).
Proof.
  unfold calls. rewrite filter_app, length_app. simpl.
  destruct (is_call f e); reflexivity.
Qed.

Lemma sent_snoc (q : Queue) (t : list Event) (e : Event) :
  sent q (t ++ [e]) = sent q t + (if is_sent q e then 1 else 0).
Proof.
  unfold sent. rewrite filter_app, length_app. simpl.
  destruct (is_sent q e); reflexivity.
Qed.

Lemma sent_from_snoc (s : StateId) (t : list Event) (e : Event) :
  sent_from s (t ++ [e]) = sent_from s t + (if is_sent_from s e then 1 else 0).
Proof.
  unfold sent_from. rewrite filter_app, length_app. simpl.
  destruct (is_sent_from s e); reflexivity.
Qed.

Lemma run_add (n m : nat) (c c' : Config) :
  run w n c = Running c' -> run w (n + m) c = run w m c'.
Proof.
  revert c; induction n as [| n IH]; intros c H; simpl in *.
  - congruence.
  - destruct (step w c); try discriminate. apply IH, H.
Qed.

(** Invariants: a property of configurations kept by every step, whose
    consequence [Q] for traces also holds of the trace a run ends with. *)
Lemma run_inv (I : Config -> Prop) (Q : list Event -> Prop) :
  (forall c, I c ->
     match step w c with
     | Next c' => I c'
     | Done t _ | Waiting t _ | Fault t _ => Q t
     end) ->
  (forall c, I c -> Q (trace c)) ->
  forall n c, I c ->
    Q (trace_of (run w n c)) /\ (forall c', run w n c = Running c' -> I c').
Proof.
  intros Hstep Hq; induction n as [| n IH]; intros c Hc; simpl.
  - split; [apply Hq, Hc | intros c' [= <-]; exact Hc].
  - specialize (Hstep c Hc). destruct (step w c); simpl;
      try (split; [exact Hstep | discriminate]).
    apply IH, Hstep.
Qed.

End Runs.

Ltac step_cases :=
  unfold step, choose, goto; simpl;
  repeat match goal with
    | |- context [set_path ?p ?v ?j] => destruct (set_path p v j)
    | |- context [render ?b ?j ?n] => destruct (render b j n)
    | |- context [reviewer ?w ?n ?m] => destruct (reviewer w n m)
    | |- context [json_str_eqb ?a ?b] => destruct (json_str_eqb a b)
    | |- context [json_bool_eqb ?a ?b] => destruct (json_bool_eqb a b)
    | |- context [get_path ?p ?j] => destruct (get_path p j)
    end; simpl.

Ltac count_events :=
  rewrite ?calls_snoc, ?sent_snoc, ?sent_from_snoc; simpl.

Lemma counts_step (w : World) (c : Config) :
  counts_inv c ->
  match step w c with
  | Next c' => counts_inv c'
  | Done t _ => calls queryExecutorFunction t <= 1 /\ sent outputQueue t = 1
  | Waiting t _ | Fault t _ =>
      calls queryExecutorFunction t <= 1 /\ sent outputQueue t = 0
  end.
Proof.
  destruct c as [s j t]; unfold counts_inv; simpl.
  destruct s; intros H; step_cases; unfold counts_inv; simpl;
    count_events; lia.
Qed.

Lemma counts_init (input : json) : counts_inv (init input).
Proof. unfold counts_inv; simpl. auto. Qed.

(** Every configuration a run passes through satisfies [counts_inv]. *)
Lemma counts_reached (w : World) (input : json) (n : nat) (c : Config) :
  run w n (init input) = Running c -> counts_inv c.
Proof.
  intros H.
  refine (proj2 (run_inv w counts_inv (fun _ => True) _ _ n (init input)
                   (counts_init input)) c H).
  - intros c0 H0. pose proof (counts_step w c0 H0) as Hs.
    destruct (step w c0); auto.
  - auto.
Qed.

(** ** Reading and writing members *)

Lemma member_put_same (k : string) (v : json) (ms : list (string * json)) :
  member k (put k v ms) = Some v.
Proof.
  induction ms as [| [k' v'] ms IH]; simpl.
  - rewrite String.eqb_refl. reflexivity.
  - destruct (String.eqb k k') eqn:E; simpl; rewrite ?E, ?String.eqb_refl; auto.
Qed.

Lemma member_put_other (k k' : string) (v : json) (ms : list (string * json)) :
  String.eqb k k' = false -> member k (put k' v ms) = member k ms.
Proof.
  intros Hne. induction ms as [| [k0 v0] ms IH]; simpl.
  - rewrite Hne. reflexivity.
  - destruct (String.eqb k' k0) eqn:E; simpl.
    + apply String.eqb_eq in E; subst k0. rewrite Hne. reflexivity.
    + destruct (String.eqb k k0); auto.
Qed.

Lemma get_path_cons (k : string) (p : path) (ms : list (string * json)) :
  get_path (k :: p) (JObj ms)
  = match member k ms with Some v => get_path p v | None => None end.
Proof. reflexivity. Qed.

Lemma get_put_same (k : string) (p : path) (v : json) ms :
  get_path (k :: p) (JObj (put k v ms)) = get_path p v.
Proof. rewrite get_path_cons, member_put_same. reflexivity. Qed.

Lemma get_put_other (k k' : string) (p : path) (v : json) ms :
  String.eqb k k' = false ->
  get_path (k :: p) (JObj (put k' v ms)) = get_path (k :: p) (JObj ms).
Proof. intros H. rewrite !get_path_cons, member_put_other; auto. Qed.

Lemma set_path_top (k : string) (v : json) ms :
  set_path [k] v (JObj ms) = Some (JObj (put k v ms)).
Proof. reflexivity. Qed.

Lemma get_path_object (k : string) (p : path) (j v : json) :
  get_path (k :: p) j = Some v -> exists ms, j = JObj ms.
Proof. destruct j; try discriminate. eauto. Qed.

(** ** The states of the autocorrect path, one step each *)

Section Steps.

Variable w : World.

Lemma step_autocorrect_error (j : json) (t : list Event) :
  get_path ["queryStatus"; "Payload"; "status"] j = Some (JStr "QUERY_ERROR") ->
  step w {| at_state := is_autocorrect_required; ctx := j; trace := t |}
  = Next {| at_state := configure_count; ctx := j; trace := t |}.
Proof.
  intros H. unfold step, choose; cbn [at_state definition ctx trace].
  cbn [first_match eval]. rewrite H. reflexivity.
Qed.

Lemma step_configure_count ms (t : list Event) :
  step w {| at_state := configure_count; ctx := JObj ms; trace := t |}
  = Next {| at_state := iterator;
            ctx := JObj (put "iterator" initial_counter ms); trace := t |}.
Proof. reflexivity. Qed.

Lemma step_iterator ms (t : list Event) :
  step w {| at_state := iterator; ctx := JObj ms; trace := t |}
  = Next {| at_state := is_count_reached;
            ctx := JObj (put "iterator"
                     (envelope (lambda w autocorrectQueryFunction
                                  (calls autocorrectQueryFunction t) (JObj ms)))
                     ms);
            trace := t ++ [Invoked autocorrectQueryFunction (JObj ms)] |}.
Proof. reflexivity. Qed.

Lemma step_is_count_reached (j v : json) (t : list Event) :
  get_path ["iterator"; "Payload"; "continue"] j = Some v ->
  step w {| at_state := is_count_reached; ctx := j; trace := t |}
  = Next {| at_state :=
              if json_bool_eqb v true
              then generate_alternate_query else publish_query_result;
            ctx := j; trace := t |}.
Proof.
  intros H. unfold step, choose; cbn [at_state definition ctx trace].
  cbn [first_match eval]. rewrite H.
  destruct (json_bool_eqb v true); reflexivity.
Qed.

Lemma step_generate_alternate ms (t : list Event) :
  step w {| at_state := generate_alternate_query; ctx := JObj ms; trace := t |}
  = Next {| at_state := iterator;
            ctx := JObj (put "queryConfig"
                     (envelope (lambda w queryGeneratorFunction
                                  (calls queryGeneratorFunction t) (JObj ms)))
                     ms);
            trace := t ++ [Invoked queryGeneratorFunction (JObj ms)] |}.
Proof. reflexivity. Qed.

(** The publish state sends its message when the context has the three
    paths of the body, and fails without sending otherwise. *)
Lemma step_publish (j : json) (t : list Event) :
  step w {| at_state := publish_query_result; ctx := j; trace := t |}
  = match publish_body j with
    | Some body =>
        Done (t ++ [Sent outputQueue publish_query_result body]) j
    | None => Fault t j
    end.
Proof. reflexivity. Qed.

Lemma run_S (n : nat) (c : Config) :
  run w (S n) c
  = match step w c with
    | Next c' => run w n c'
    | Done t j => Completed t j
    | Waiting t j => Suspended t j
    | Fault t j => Failed t j
    end.
Proof. reflexivity. Qed.

(** A run that has stopped stays stopped when given more fuel. *)
Lemma run_stopped (n k : nat) (c : Config) :
  (forall c', run w n c <> Running c') -> run w (n + k) c = run w n c.
Proof.
  revert c; induction n as [| n IH]; intros c H.
  - exfalso. apply (H c). reflexivity.
  - simpl in *. destruct (step w c); auto.
Qed.

End Steps.

Lemma get_envelope (p : path) (r : json) :
  get_path ("Payload" :: p) (envelope r) = get_path p r.
Proof. reflexivity. Qed.

Lemma json_bool_eqb_some (b b' : bool) :
  json_bool_eqb (JBool b) b' = Bool.eqb b b'.
Proof. reflexivity. Qed.

(** The body of the published message, member by member. *)
Lemma publish_body_spec (j : json) :
  publish_body j
  = match get_path ["queryStatus"; "Payload"; "result"] j,
          get_path ["user_question"] j,
          get_path ["question_unique_id"] j with
    | Some r, Some u, Some q =>
        Some [ ("result", text_input r); ("user_question", text_input u);
               ("question_unique_id", text_input q) ]
    | _, _, _ => None
    end.
Proof.
  cbv [publish_body publish_fields render render_input option_map].
  destruct (get_path ["queryStatus"; "Payload"; "result"] j),
    (get_path ["user_question"] j), (get_path ["question_unique_id"] j);
    reflexivity.
Qed.

(** Writing a member the message does not read leaves its body as it is. *)
Lemma publish_body_put (k : string) (v : json) ms :
  String.eqb "queryStatus" k = false ->
  String.eqb "user_question" k = false ->
  String.eqb "question_unique_id" k = false ->
  publish_body (JObj (put k v ms)) = publish_body (JObj ms).
Proof.
  intros H1 H2 H3. rewrite !publish_body_spec.
  rewrite !get_put_other by assumption. reflexivity.
Qed.

(** ** Scenario C: one failed execution, one pass through the loop *)

Lemma scenario_C_run (w : World) (input : json) (n : nat) (c : Config) :
  scenario_C w input n c ->
  exists c7,
    run w (n + 7) (init input) = Running c7
    /\ at_state c7 = publish_query_result
    /\ calls queryGeneratorFunction (trace c7) = 2
    /\ calls queryExecutorFunction (trace c7) = 1
    /\ calls autocorrectQueryFunction (trace c7) = 2
    /\ sent outputQueue (trace c7) = 0
    /\ publish_body (ctx c7) = publish_body (ctx c).
Proof.
  intros (Hrun & Hat & Hst & Hfirst & Hsecond).
  pose proof (counts_reached _ _ _ _ Hrun) as Hc.
  rewrite (run_add _ _ _ _ _ Hrun).
  destruct c as [s j t]; simpl in Hat, Hst; subst s.
  unfold counts_inv in Hc; simpl in Hc. destruct Hc as (Hg & He & Hi & Hp).
  destruct (get_path_object _ _ _ _ Hst) as [ms ->].
  rewrite run_S, step_autocorrect_error by exact Hst.
  rewrite run_S, step_configure_count.
  rewrite run_S, step_iterator.
  rewrite run_S, (step_is_count_reached w _ (JBool true)).
  2:{ rewrite get_put_same, get_envelope, Hi. apply Hfirst. }
  rewrite json_bool_eqb_some. cbn [Bool.eqb].
  rewrite run_S, step_generate_alternate.
  rewrite run_S, step_iterator.
  rewrite run_S, (step_is_count_reached w _ (JBool false)).
  2:{ rewrite get_put_same, get_envelope.
      replace (calls autocorrectQueryFunction _) with 1
        by (count_events; lia).
      apply Hsecond. }
  rewrite json_bool_eqb_some. cbn [Bool.eqb].
  eexists; split; [reflexivity | ].
  cbn [at_state trace ctx].
  split; [reflexivity | ].
  repeat (split; [count_events; lia | ]).
  rewrite !publish_body_put by reflexivity. reflexivity.
Qed.

(** C1 (amended). In every run in which the first ExecuteQuery invocation
    returns the status QUERY_ERROR and Iterate reports continue = true once
    and then false, the workflow reaches Publish after exactly two
    GenerateQuery invocations, exactly one ExecuteQuery invocation (the
    regenerated query goes back to Iterate, not to ExecuteQuery) and
    exactly two Iterate invocations; and when the context holds the three
    members the message reads ([queryStatus.Payload.result],
    [user_question], [question_unique_id]) the run completes with exactly
    one published message, while without them the publish state fails and
    nothing is published. *)
Theorem scenario_C_counts (w : World) (input : json) (n : nat) (c : Config)
  (H : scenario_C w input n c) :
  exists c7,
    run w (n + 7) (init input) = Running c7
    /\ at_state c7 = publish_query_result
    /\ calls queryGeneratorFunction (trace c7) = 2
    /\ calls queryExecutorFunction (trace c7) = 1
    /\ calls autocorrectQueryFunction (trace c7) = 2
    /\ sent outputQueue (trace c7) = 0
    /\ match publish_body (ctx c) with
       | Some body =>
           run w (n + 8) (init input)
           = Completed
               (trace c7 ++ [Sent outputQueue publish_query_result body])
               (ctx c7)
       | None => run w (n + 8) (init input) = Failed (trace c7) (ctx c7)
       end.
Proof.
  destruct (scenario_C_run w input n c H)
    as (c7 & Hrun & Hat & Hg & He & Hi & Hp & Hb).
  exists c7. repeat (split; [assumption | ]).
  replace (n + 8) with ((n + 7) + 1) by lia.
  rewrite (run_add _ _ _ _ _ Hrun), <- Hb.
  destruct c7 as [s j t]. cbn [at_state ctx trace] in *. subst s.
  rewrite run_S, step_publish.
  destruct (publish_body j); reflexivity.
Qed.

Lemma scenario_C_example :
  scenario_C world_C example_input 6 (config_after world_C 6 example_input).
Proof.
  unfold scenario_C. split; [vm_compute; reflexivity | ].
  split; [vm_compute; reflexivity | ].
  split; [vm_compute; reflexivity | ].
  split; intros x; vm_compute; reflexivity.
Defined.

Lemma scenario_C_counts_witness :
  scenario_C world_C example_input 6 (config_after world_C 6 example_input)
  /\ exists c7,
       run world_C (6 + 7) (init example_input) = Running c7
       /\ at_state c7 = publish_query_result
       /\ calls queryGeneratorFunction (trace c7) = 2
       /\ calls queryExecutorFunction (trace c7) = 1
       /\ calls autocorrectQueryFunction (trace c7) = 2.
Proof.
  split; [exact scenario_C_example | ].
  destruct (scenario_C_counts world_C example_input 6
              (config_after world_C 6 example_input) scenario_C_example)
    as (c7 & H1 & H2 & H3 & H4 & H5 & _).
  exists c7. repeat (split; [assumption | ]). assumption.
Defined.

(** A run that has completed keeps its trace whatever the fuel. *)
Lemma completed_unique (w : World) (c : Config) (n m : nat)
  (t t' : list Event) (j j' : json) :
  run w n c = Completed t j -> run w m c = Completed t' j' -> t = t'.
Proof.
  intros Hn Hm.
  assert (H1 : run w (n + m) c = Completed t j).
  { rewrite run_stopped; [exact Hn | intros c'; rewrite Hn; discriminate]. }
  assert (H2 : run w (m + n) c = Completed t' j').
  { rewrite run_stopped; [exact Hm | intros c'; rewrite Hm; discriminate]. }
  rewrite Nat.add_comm, H2 in H1. congruence.
Qed.

(** C1 as stated (two ExecuteQuery invocations) fails: in the example run
    of scenario C the workflow completes after a single ExecuteQuery
    invocation. *)
Lemma scenario_C_two_executions_refuted :
  ~ (forall w input n c,
       scenario_C w input n c ->
       exists m t final,
         run w m (init input) = Completed t final
         /\ calls queryGeneratorFunction t = 2
         /\ calls queryExecutorFunction t = 2
         /\ calls autocorrectQueryFunction t = 2
         /\ sent outputQueue t = 1).
Proof.
  intros H.
  destruct (H _ _ _ _ scenario_C_example) as (m & t & final & Hrun & _ & He & _).
  destruct (scenario_C_run _ _ _ _ scenario_C_example)
    as (c7 & H7 & Hat & _ & He7 & _ & _ & _).
  assert (H8 : exists t8 j8, run world_C (6 + 7 + 1) (init example_input)
                             = Completed t8 j8
                             /\ calls queryExecutorFunction t8 = 1).
  { rewrite (run_add _ _ _ _ _ H7).
    destruct c7 as [s j t7]. cbn [at_state trace] in *. subst s.
    rewrite run_S, step_publish.
    destruct (publish_body j) as [body |] eqn:Eb.
    - eexists; eexists; split; [reflexivity | ]. count_events. lia.
    - exfalso.
      assert (Hf : run world_C (6 + 7 + 1) (init example_input)
                   = Failed t7 j).
      { rewrite (run_add _ _ _ _ _ H7), run_S, step_publish, Eb.
        reflexivity. }
      vm_compute in Hf. discriminate Hf. }
  destruct H8 as (t8 & j8 & H8 & He8).
  rewrite (completed_unique _ _ _ _ _ _ _ _ Hrun H8) in He. lia.
Qed.

(** ** Scenario A: nothing to correct *)

Example scenario_A_run :
  exists t final,
    run world_A 8 (init example_input) = Completed t final
    /\ calls queryGeneratorFunction t = 1
    /\ calls queryExecutorFunction t = 1
    /\ calls autocorrectQueryFunction t = 0
    /\ sent queue t = 0
    /\ sent outputQueue t = 1.
Proof. eexists; eexists; split; [vm_compute; reflexivity | repeat split]. Qed.

(** ** Scenario B: execution disabled *)

Lemma step_execute_gate_disabled (w : World) (j : json) (t : list Event) :
  get_path ["queryConfig"; "Payload"; "execute_sql_strategy"] j
  = Some (JStr "disabled") ->
  step w {| at_state := is_query_execution_req; ctx := j; trace := t |}
  = Next {| at_state := publish_query_result; ctx := j; trace := t |}.
Proof.
  intros H. unfold step, choose; cbn [at_state definition ctx trace].
  cbn [first_match eval]. rewrite H. reflexivity.
Qed.

(** Every run that reaches the execute-gate with execution disabled has
    invoked no ExecuteQuery and goes straight to Publish; whether a message
    is then published depends on the context having the three members the
    message reads. *)
Lemma disabled_execution_reaches_publish (w : World) (input : json) (n : nat)
  (c : Config) :
  run w n (init input) = Running c ->
  at_state c = is_query_execution_req ->
  get_path ["queryConfig"; "Payload"; "execute_sql_strategy"] (ctx c)
  = Some (JStr "disabled") ->
  run w (n + 1) (init input)
  = Running {| at_state := publish_query_result; ctx := ctx c;
               trace := trace c |}
  /\ calls queryExecutorFunction (trace c) = 0
  /\ sent outputQueue (trace c) = 0
  /\ match publish_body (ctx c) with
     | Some body =>
         run w (n + 2) (init input)
         = Completed (trace c ++ [Sent outputQueue publish_query_result body])
             (ctx c)
     | None => run w (n + 2) (init input) = Failed (trace c) (ctx c)
     end.
Proof.
  intros Hrun Hat Hdis.
  pose proof (counts_reached _ _ _ _ Hrun) as Hc.
  rewrite !(run_add _ _ _ _ _ Hrun).
  destruct c as [s j t]; simpl in Hat, Hdis; subst s.
  unfold counts_inv in Hc; simpl in Hc. destruct Hc as (Hg & He & Hi & Hp).
  cbn [ctx trace].
  split; [rewrite run_S, (step_execute_gate_disabled _ _ _ Hdis); reflexivity | ].
  split; [exact He | split; [exact Hp | ]].
  rewrite run_S, (step_execute_gate_disabled _ _ _ Hdis).
  rewrite run_S, step_publish.
  destruct (publish_body j); reflexivity.
Qed.

(** C4 (the code at the failing input). In scenario B, where GenerateQuery
    reports [execute_sql_strategy] "disabled", the run reaches the
    execute-gate without having invoked ExecuteQuery and goes straight to
    Publish; the context has no [queryStatus.Payload.result], since only
    ExecuteQuery writes it, and the publish state fails: the run ends
    failed, with no message on the output queue. *)
Theorem disabled_execution_fails_at_publish :
  let c := config_after world_B 4 example_input in
  run world_B 4 (init example_input) = Running c
  /\ at_state c = is_query_execution_req
  /\ get_path ["queryConfig"; "Payload"; "execute_sql_strategy"] (ctx c)
     = Some (JStr "disabled")
  /\ calls queryExecutorFunction (trace c) = 0
  /\ get_path ["queryStatus"; "Payload"; "result"] (ctx c) = None
  /\ run world_B 5 (init example_input)
     = Running {| at_state := publish_query_result; ctx := ctx c;
                  trace := trace c |}
  /\ run world_B 6 (init example_input) = Failed (trace c) (ctx c)
  /\ sent outputQueue (trace c) = 0.
Proof. repeat split. Qed.

(** ** The first branch point *)

Lemma step_reformulate (w : World) ms (t : list Event) :
  step w {| at_state := reformulate_question; ctx := JObj ms; trace := t |}
  = Next {| at_state := is_feedback_req_on_reformualted_question;
            ctx := JObj (put "queryConfig"
                     (envelope (lambda w reformulateQuestionFunction
                                  (calls reformulateQuestionFunction t) (JObj ms)))
                     ms);
            trace := t ++ [Invoked reformulateQuestionFunction (JObj ms)] |}.
Proof. reflexivity. Qed.

Lemma step_first_branch (w : World) (j r : json) (t : list Event) :
  get_path ["queryConfig"; "Payload"] j = Some r ->
  step w {| at_state := is_feedback_req_on_reformualted_question;
            ctx := j; trace := t |}
  = match get_path ["semantic_layer_strategy"] r with
    | Some v =>
        Next {| at_state :=
                  if json_str_eqb v "human"
                  then get_feedback_on_reformulated_question
                  else generate_query_path_two;
                ctx := r; trace := t |}
    | None => Fault t r
    end.
Proof.
  intros H. unfold step, choose; cbn [at_state definition ctx trace].
  rewrite H. cbn [first_match eval].
  destruct (get_path ["semantic_layer_strategy"] r) as [v |]; [ | reflexivity].
  destruct (json_str_eqb v "human"); reflexivity.
Qed.

Lemma past_first_branch_step (w : World) (c : Config) :
  past_first_branch (at_state c) = true ->
  match step w c with
  | Next c' => past_first_branch (at_state c') = true
  | _ => True
  end.
Proof.
  destruct c as [s j t]; simpl.
  destruct s; intros H; try discriminate H; step_cases; auto.
Qed.

Lemma path_two_step (w : World) (c : Config) :
  path_two_state (at_state c) = true
  /\ sent_from get_feedback_on_reformulated_question (trace c) = 0 ->
  match step w c with
  | Next c' =>
      path_two_state (at_state c') = true
      /\ sent_from get_feedback_on_reformulated_question (trace c') = 0
  | Done t _ | Waiting t _ | Fault t _ =>
      sent_from get_feedback_on_reformulated_question t = 0
  end.
Proof.
  destruct c as [s j t]; simpl.
  destruct s; intros [H H0]; try discriminate H; step_cases;
    count_events; auto; lia.
Qed.

(** The first branch point is met after exactly one state. *)
Lemma first_branch_after_one (w : World) (input : json) (n : nat) (c : Config) :
  run w n (init input) = Running c ->
  at_state c = is_feedback_req_on_reformualted_question ->
  n = 1.
Proof.
  destruct n as [| [| n]]; [ | reflexivity | ].
  - intros [= <-]. discriminate.
  - intros Hrun Hat. exfalso.
    rewrite run_S in Hrun.
    destruct (step w (init input)) as [c1 | | |] eqn:E1; try discriminate.
    rewrite run_S in Hrun.
    destruct (step w c1) as [c2 | | |] eqn:E2; try discriminate.
    assert (H2 : past_first_branch (at_state c2) = true).
    { revert E1 E2. unfold init, step at 1; simpl.
      destruct (set_path _ _ _); try discriminate.
      intros [= <-]. step_cases; intros E; try discriminate E;
        injection E as <-; reflexivity. }
    destruct (run_inv w (fun c => past_first_branch (at_state c) = true)
                (fun _ => True)) with (n := n) (c := c2) as [_ Hinv]; auto.
    + intros c0 H0. pose proof (past_first_branch_step w c0 H0).
      destruct (step w c0); auto.
    + specialize (Hinv c Hrun). rewrite Hat in Hinv. discriminate.
Qed.

Lemma no_gate_one_run (w : World) (input : json) (c : Config) (e : json) :
  run w 1 (init input) = Running c ->
  get_path ["queryConfig"; "Payload"] (ctx c) = Some e ->
  get_path ["semantic_layer_strategy"] e <> Some (JStr "human") ->
  forall m,
    sent_from get_feedback_on_reformulated_question
      (trace_of (run w m (init input))) = 0.
Proof.
  intros Hrun He Hne m.
  assert (Hc : at_state c = is_feedback_req_on_reformualted_question
               /\ trace c = [Invoked reformulateQuestionFunction input]).
  { revert Hrun. rewrite run_S. unfold init, step; simpl.
    destruct (set_path _ _ _); try discriminate.
    intros [= <-]. auto. }
  destruct m as [| [| m]]; [reflexivity | rewrite Hrun | ].
  - cbn [trace_of]. destruct Hc as [_ ->]. reflexivity.
  - change (S (S m)) with (1 + S m). rewrite (run_add _ _ _ _ _ Hrun).
    destruct c as [s j t]; simpl in Hc, He. destruct Hc as [-> ->].
    rewrite run_S, (step_first_branch w _ e) by exact He.
    destruct (get_path ["semantic_layer_strategy"] e) as [v |] eqn:Ev;
      [ | reflexivity].
    assert (Hf : json_str_eqb v "human" = false).
    { destruct v as [| | | s |]; try reflexivity.
      unfold json_str_eqb.
      destruct (String.eqb_spec s "human") as [-> | Hs]; [ | reflexivity].
      contradiction Hne; reflexivity. }
    rewrite Hf.
    apply (run_inv w
             (fun c => path_two_state (at_state c) = true
                       /\ sent_from get_feedback_on_reformulated_question
                            (trace c) = 0)
             (fun t => sent_from get_feedback_on_reformulated_question t = 0)).
    + apply path_two_step.
    + intros c0 [_ H0]; exact H0.
    + split; reflexivity.
Qed.

(** C3. When the execution context the first branch point evaluates (the
    document its [inputPath] selects, which is the context of the run from
    there on) has a [semantic_layer_strategy] other than ["human"], no
    message is ever sent by [get_feedback_on_reformulated_question]: the
    run never asks the reviewer about the reformulated question. *)
Theorem no_reformulation_feedback (w : World) (input : json) (n : nat)
  (c : Config) (e : json) :
  run w n (init input) = Running c ->
  at_state c = is_feedback_req_on_reformualted_question ->
  get_path ["queryConfig"; "Payload"] (ctx c) = Some e ->
  get_path ["semantic_layer_strategy"] e <> Some (JStr "human") ->
  forall m,
    sent_from get_feedback_on_reformulated_question
      (trace_of (run w m (init input))) = 0.
Proof.
  intros Hrun Hat He Hne.
  pose proof (first_branch_after_one _ _ _ _ Hrun Hat) as ->.
  exact (no_gate_one_run w input c e Hrun He Hne).
Qed.

Lemma no_reformulation_feedback_witness :
  let c := config_after world_A 1 example_input in
  run world_A 1 (init example_input) = Running c
  /\ at_state c = is_feedback_req_on_reformualted_question
  /\ forall m,
       sent_from get_feedback_on_reformulated_question
         (trace_of (run world_A m (init example_input))) = 0.
Proof.
  intros c.
  assert (Hrun : run world_A 1 (init example_input) = Running c)
    by (vm_compute; reflexivity).
  assert (Hat : at_state c = is_feedback_req_on_reformualted_question)
    by (vm_compute; reflexivity).
  split; [exact Hrun | split; [exact Hat | ]].
  refine (no_reformulation_feedback world_A example_input 1 c
            (lambda world_A reformulateQuestionFunction 0 example_input)
            Hrun Hat _ _).
  - vm_compute; reflexivity.
  - vm_compute; discriminate.
Defined.

(** ** The autocorrect loop with the Iterate unit *)

Lemma Iterate_at_entry ms :
  member "iterator" ms = Some initial_counter ->
  Iterate (JObj ms) = counter_value 1.
Proof.
  intros H. unfold Iterate, read_counter.
  rewrite !get_path_cons, H. reflexivity.
Qed.

Lemma Iterate_again ms (i : Z) :
  member "iterator" ms = Some (envelope (counter_value i)) ->
  Iterate (JObj ms) = counter_value (i + 1).
Proof.
  intros H. unfold Iterate, read_counter.
  rewrite !get_path_cons, H. reflexivity.
Qed.

Lemma counter_index ms (i : Z) :
  member "iterator" ms = Some (envelope (counter_value i)) ->
  get_path ["iterator"; "Payload"; "index"] (JObj ms) = Some (JNum i)
  /\ get_path ["iterator"; "Payload"; "count"] (JObj ms) = Some (JNum 3)
  /\ get_path ["iterator"; "Payload"; "continue"] (JObj ms)
     = Some (JBool (Z.ltb i 3)).
Proof. intros H. rewrite !get_path_cons, H. repeat split. Qed.

Section IterateWorld.

Variable w : World.
Hypothesis Hw : forall n x, lambda w autocorrectQueryFunction n x = Iterate x.

Lemma loop_inv_step (c : Config) :
  loop_inv c ->
  match step w c with
  | Next c' => loop_inv c'
  | _ => True
  end.
Proof.
  destruct c as [s j t]. intros (ms & Hj & H). simpl in Hj, H. subst j.
  destruct s; try contradiction.
  - (* generate_alternate_query *)
    rewrite step_generate_alternate. destruct H as (i & Hi & Hm).
    eexists; split; [reflexivity | ]. simpl. right. exists i. split; [exact Hi | ].
    rewrite member_put_other by reflexivity. exact Hm.
  - (* iterator *)
    rewrite step_iterator, Hw.
    eexists; split; [reflexivity | ]. simpl.
    rewrite member_put_same.
    destruct H as [H | (i & Hi & H)].
    + rewrite (Iterate_at_entry _ H). exists 1%Z. split; [lia | reflexivity].
    + rewrite (Iterate_again _ _ H). exists (i + 1)%Z. split; [lia | reflexivity].
  - (* is_count_reached *)
    destruct H as (i & Hi & Hm).
    destruct (counter_index _ _ Hm) as (_ & _ & Hcont).
    rewrite (step_is_count_reached w _ _ _ Hcont).
    rewrite json_bool_eqb_some.
    destruct (Z.ltb_spec i 3); simpl.
    + exists ms; split; [reflexivity | ]. simpl. exists i. split; [lia | exact Hm].
    + exists ms; split; [reflexivity | ]. simpl. exists i. split; [lia | exact Hm].
  - (* publish_query_result *)
    rewrite step_publish. destruct (publish_body _); exact I.
Qed.

Lemma loop_inv_index (c : Config) (i k : Z) :
  loop_inv c ->
  get_path ["iterator"; "Payload"; "index"] (ctx c) = Some (JNum i) ->
  get_path ["iterator"; "Payload"; "count"] (ctx c) = Some (JNum k) ->
  (i <= k)%Z /\ k = 3%Z.
Proof.
  destruct c as [s j t]. intros (ms & Hj & H). simpl in Hj, H. subst j. simpl.
  assert (Hcase : member "iterator" ms = Some initial_counter
                  \/ exists i0, (1 <= i0 <= 3)%Z
                        /\ member "iterator" ms
                           = Some (envelope (counter_value i0))).
  { destruct s; try contradiction.
    - destruct H as (i0 & Hi & Hm). right. exists i0. split; [lia | exact Hm].
    - destruct H as [H | (i0 & Hi & Hm)]; [left; exact H | ].
      right. exists i0. split; [lia | exact Hm].
    - right. exact H.
    - right. exact H. }
  destruct Hcase as [Hm | (i0 & Hi & Hm)].
  - rewrite !get_path_cons, Hm. discriminate.
  - destruct (counter_index _ _ Hm) as (Hidx & Hcnt & _).
    rewrite Hidx, Hcnt. intros [= <-] [= <-]. split; [lia | reflexivity].
Qed.

Lemma loop_unrolled ms (t : list Event) :
  get_path ["queryStatus"; "Payload"; "status"] (JObj ms)
  = Some (JStr "QUERY_ERROR") ->
  let c := {| at_state := is_autocorrect_required; ctx := JObj ms;
              trace := t |} in
  run w 2 c = Running {| at_state := iterator;
                         ctx := JObj (put "iterator" initial_counter ms);
                         trace := t |}
  /\ exists c10,
       run w 10 c = Running c10
       /\ at_state c10 = publish_query_result
       /\ calls queryGeneratorFunction (trace c10)
          = calls queryGeneratorFunction t + 2
       /\ calls autocorrectQueryFunction (trace c10)
          = calls autocorrectQueryFunction t + 3
       /\ sent outputQueue (trace c10) = sent outputQueue t
       /\ publish_body (ctx c10) = publish_body (JObj ms).
Proof.
  intros Hst c. subst c. split.
  - rewrite run_S, step_autocorrect_error by exact Hst.
    rewrite run_S, step_configure_count. reflexivity.
  - rewrite run_S, step_autocorrect_error by exact Hst.
    rewrite run_S, step_configure_count.
    rewrite run_S, step_iterator, Hw.
    rewrite (Iterate_at_entry _ (member_put_same _ _ _)).
    rewrite run_S, (step_is_count_reached w _ (JBool true))
      by (rewrite get_put_same, get_envelope; reflexivity).
    rewrite json_bool_eqb_some. cbn [Bool.eqb].
    rewrite run_S, step_generate_alternate.
    rewrite run_S, step_iterator, Hw.
    rewrite (Iterate_again _ 1).
    2:{ rewrite member_put_other by reflexivity. apply member_put_same. }
    rewrite run_S, (step_is_count_reached w _ (JBool true))
      by (rewrite get_put_same, get_envelope; reflexivity).
    rewrite json_bool_eqb_some. cbn [Bool.eqb].
    rewrite run_S, step_generate_alternate.
    rewrite run_S, step_iterator, Hw.
    rewrite (Iterate_again _ 2).
    2:{ rewrite member_put_other by reflexivity. apply member_put_same. }
    rewrite run_S, (step_is_count_reached w _ (JBool false))
      by (rewrite get_put_same, get_envelope; reflexivity).
    rewrite json_bool_eqb_some. cbn [Bool.eqb].
    eexists; split; [reflexivity | ]. cbn [at_state trace ctx].
    split; [reflexivity | ].
    repeat (split; [count_events; lia | ]).
    rewrite !publish_body_put by reflexivity. reflexivity.
Qed.

End IterateWorld.

(** C2. With the Iterate unit in place, a run that enters the autocorrect
    loop (ExecuteQuery reported QUERY_ERROR) has its counter initialised to
    count = 3, index = 0, step = 1 before the first Iterate; it leaves the
    loop for Publish after at most three (in fact two) further
    GenerateQuery invocations, and stops there (with its message when the
    context has the members the message reads, failed otherwise); and from
    loop entry on, whenever the context holds [iterator.Payload.index] and
    [iterator.Payload.count], the count is 3 and the index does not exceed
    it. *)
Theorem autocorrect_loop_bounded (w : World) (input : json) (n : nat)
  (c : Config) :
  (forall k x, lambda w autocorrectQueryFunction k x = Iterate x) ->
  run w n (init input) = Running c ->
  at_state c = is_autocorrect_required ->
  get_path ["queryStatus"; "Payload"; "status"] (ctx c)
  = Some (JStr "QUERY_ERROR") ->
  (exists c2,
     run w (n + 2) (init input) = Running c2
     /\ at_state c2 = iterator
     /\ get_path ["iterator"] (ctx c2) = Some initial_counter)
  /\ (exists c10,
        run w (n + 10) (init input) = Running c10
        /\ at_state c10 = publish_query_result
        /\ calls queryGeneratorFunction (trace c10)
           <= calls queryGeneratorFunction (trace c) + 3
        /\ match publish_body (ctx c) with
           | Some body =>
               run w (n + 11) (init input)
               = Completed
                   (trace c10 ++ [Sent outputQueue publish_query_result body])
                   (ctx c10)
           | None =>
               run w (n + 11) (init input) = Failed (trace c10) (ctx c10)
           end)
  /\ (forall m c' i k,
        run w (n + 2 + m) (init input) = Running c' ->
        get_path ["iterator"; "Payload"; "index"] (ctx c') = Some (JNum i) ->
        get_path ["iterator"; "Payload"; "count"] (ctx c') = Some (JNum k) ->
        (i <= k)%Z /\ k = 3%Z).
Proof.
  intros Hw Hrun Hat Hst.
  destruct c as [s j t]; simpl in Hat, Hst; subst s.
  destruct (get_path_object _ _ _ _ Hst) as [ms ->].
  destruct (loop_unrolled w Hw ms t Hst)
    as (H2 & c10 & H10 & Hat10 & Hg & _ & _ & Hb).
  assert (Hn2 : run w (n + 2) (init input)
                = Running {| at_state := iterator;
                             ctx := JObj (put "iterator" initial_counter ms);
                             trace := t |}).
  { rewrite (run_add _ _ _ _ _ Hrun). exact H2. }
  assert (Hn10 : run w (n + 10) (init input) = Running c10).
  { rewrite (run_add _ _ _ _ _ Hrun). exact H10. }
  split; [ | split].
  - eexists; split; [exact Hn2 | split; [reflexivity | ]].
    simpl. apply get_put_same.
  - exists c10. split; [exact Hn10 | split; [exact Hat10 | ]].
    split; [cbn [trace]; lia | ].
    cbn [ctx]. rewrite <- Hb.
    replace (n + 11) with ((n + 10) + 1) by lia.
    rewrite (run_add _ _ _ _ _ Hn10).
    destruct c10 as [s10 j10 t10]. cbn [at_state ctx trace] in *. subst s10.
    rewrite run_S, step_publish. destruct (publish_body j10); reflexivity.
  - intros m c' i k Hm. rewrite (run_add _ _ _ _ _ Hn2) in Hm.
    apply (loop_inv_index c' i k).
    refine (proj2 (run_inv w loop_inv (fun _ => True) _ _ m _ _) c' Hm).
    + intros c0 H0. pose proof (loop_inv_step w Hw c0 H0).
      destruct (step w c0); auto.
    + auto.
    + eexists; split; [reflexivity | ]. simpl. left. apply member_put_same.
Qed.

(** The bound is Iterate's: the graph itself only follows the [continue]
    flag, and with a unit that keeps answering [true] the run is still in
    the loop after 60 states, with more than three regenerated queries. *)
Lemma loop_follows_continue_flag :
  exists c,
    run world_E 60 (init example_input) = Running c
    /\ In (at_state c) autocorrect_loop
    /\ 3 < calls queryGeneratorFunction (trace c) - 1.
Proof.
  eexists; split; [vm_compute; reflexivity | ].
  split; vm_compute; [tauto | lia].
Qed.

Lemma autocorrect_loop_bounded_witness :
  let c := config_after world_D 6 example_input in
  run world_D 6 (init example_input) = Running c
  /\ at_state c = is_autocorrect_required
  /\ (exists c10,
        run world_D (6 + 10) (init example_input) = Running c10
        /\ at_state c10 = publish_query_result
        /\ calls queryGeneratorFunction (trace c10)
           <= calls queryGeneratorFunction (trace c) + 3).
Proof.
  intros c.
  assert (Hw : forall k x, lambda world_D autocorrectQueryFunction k x = Iterate x)
    by (intros k x; reflexivity).
  assert (Hrun : run world_D 6 (init example_input) = Running c)
    by (vm_compute; reflexivity).
  assert (Hat : at_state c = is_autocorrect_required) by (vm_compute; reflexivity).
  assert (Hst : get_path ["queryStatus"; "Payload"; "status"] (ctx c)
                = Some (JStr "QUERY_ERROR")) by (vm_compute; reflexivity).
  split; [exact Hrun | split; [exact Hat | ]].
  destruct (proj1 (proj2 (autocorrect_loop_bounded world_D example_input 6 c
                            Hw Hrun Hat Hst)))
    as (c10 & H1 & H2 & H3 & _).
  exists c10. split; [exact H1 | split; [exact H2 | exact H3]].
Defined.
(** * Properties of the set-up code *)

Section SetUp.

Import Construct.

Lemma validate_conflicting (props : TextToSqlProps) (this : TextToSql) :
  conflicting props = true ->
  exists msg, validateDbProps props this = (inl (Error msg), this).
Proof.
  unfold conflicting, validateDbProps, bind, throw, ret.
  destruct (existingAuroraDbCluster props), (databaseClusterProps props),
    (existingRdsDbInstance props), (databaseInstanceProps props);
    simpl; intros H; try discriminate H; eauto.
Qed.

Lemma validate_passes (props : TextToSqlProps) (this : TextToSql) :
  conflicting props = false ->
  validateDbProps props this = (inr tt, this).
Proof.
  unfold conflicting, validateDbProps, bind, throw, ret.
  destruct (existingAuroraDbCluster props), (databaseClusterProps props),
    (existingRdsDbInstance props), (databaseInstanceProps props);
    simpl; intros H; try discriminate H; reflexivity.
Qed.

(** C8. When both members of one of the pairings
    {existingAuroraDbCluster, databaseClusterProps},
    {existingRdsDbInstance, databaseInstanceProps},
    {existingAuroraDbCluster, existingRdsDbInstance} are supplied,
    [validateDbProps] throws an [Error], and so does the constructor, with
    no resource created; when no pairing is violated, [validateDbProps]
    returns normally. *)
Theorem db_props_validation (stage : string) (props : TextToSqlProps) :
  (conflicting props = true ->
   exists msg,
     validateDbProps props fresh = (inl (Error msg), fresh)
     /\ constructor stage props fresh = (inl (Error msg), fresh)
     /\ resources (snd (constructor stage props fresh)) = [])
  /\ (conflicting props = false ->
      validateDbProps props fresh = (inr tt, fresh)).
Proof.
  split; intros H.
  - destruct (validate_conflicting props fresh H) as [msg Hv].
    exists msg. split; [exact Hv | ].
    assert (Hc : constructor stage props fresh = (inl (Error msg), fresh)).
    { unfold constructor. unfold bind at 1. rewrite Hv. reflexivity. }
    rewrite Hc. split; reflexivity.
  - apply validate_passes, H.
Qed.

Lemma db_props_validation_witness :
  conflicting props_cluster_twice = true
  /\ conflicting (minimal_props MYSQL) = false
  /\ (exists msg,
        constructor "_dev" props_cluster_twice fresh = (inl (Error msg), fresh))
  /\ validateDbProps (minimal_props MYSQL) fresh = (inr tt, fresh).
Proof.
  split; [reflexivity | split; [reflexivity | split]].
  - destruct (proj1 (db_props_validation "_dev" props_cluster_twice) eq_refl)
      as (msg & _ & Hc & _).
    exists msg; exact Hc.
  - exact (proj2 (db_props_validation "_dev" (minimal_props MYSQL)) eq_refl).
Defined.

(** C9 (the code at the failing input). With an existing Aurora cluster
    handed over, the props pass validation, the database selection assigns
    the cluster and creates no secret, and the constructor then throws a
    [TypeError] on reading [this.secret.secretArn]. *)
Theorem existing_cluster_secret_undefined :
  validateDbProps props_existing_cluster fresh = (inr tt, fresh)
  /\ secret (snd (selectDatabase "_dev" props_existing_cluster fresh)) = None
  /\ fst (constructor "_dev" props_existing_cluster fresh)
     = inl (TypeError "Cannot read properties of undefined (reading 'secretArn')")
  /\ secret (snd (constructor "_dev" props_existing_cluster fresh)) = None.
Proof. repeat split. Qed.

(** The same happens for every props that pass validation and name a
    database of their own in any of the four ways. *)
Lemma own_database_secret_undefined (stage : string) (props : TextToSqlProps) :
  conflicting props = false ->
  given (existingAuroraDbCluster props) || given (databaseClusterProps props)
  || given (existingRdsDbInstance props) || given (databaseInstanceProps props)
  = true ->
  fst (constructor stage props fresh)
  = inl (TypeError "Cannot read properties of undefined (reading 'secretArn')").
Proof.
  intros Hv Hown. unfold constructor.
  unfold bind at 1. rewrite (validate_passes props fresh Hv).
  revert Hv Hown. unfold conflicting, selectDatabase.
  destruct (existingAuroraDbCluster props), (databaseClusterProps props),
    (existingRdsDbInstance props), (databaseInstanceProps props);
    simpl; intros Hv Hown; try discriminate;
    destruct (given (existingVpc props) && given (existingSubnetGroup props)),
      (given (existingLambdaSecurityGroup props)),
      (given (existingDBSecurityGroup props)),
      (given (existingconfigAssetsBucketObj props)); reflexivity.
Qed.

(** C10 as stated fails: with no database option and [dbName] PostgreSQL
    the props pass validation, yet the selection throws and assigns neither
    field. *)
Lemma default_database_not_always_assigned :
  ~ (forall stage props,
       validateDbProps props fresh = (inr tt, fresh) ->
       assigned_fields (snd (selectDatabase stage props fresh)) = 1).
Proof.
  intros H. specialize (H "_dev" (minimal_props POSTGRESQL) eq_refl).
  vm_compute in H. discriminate.
Qed.

(** C10 (amended). The selection follows the precedence: an existing Aurora
    cluster; else a cluster from [databaseClusterProps]; else an existing
    RDS instance; else an instance from [databaseInstanceProps]; else, when
    [dbName] is MySQL, a default database (an RDS MySQL instance when
    [databaseType] is RDS, an Aurora MySQL cluster otherwise), and when
    [dbName] is not MySQL the default branch throws "Invalid database
    name".  Whenever the selection returns, exactly one of
    [databaseCluster] and [dbInstance] is assigned. *)
Theorem database_selection_precedence (stage : string) (props : TextToSqlProps) :
  let r := selectDatabase stage props fresh in
  match existingAuroraDbCluster props, databaseClusterProps props,
        existingRdsDbInstance props, databaseInstanceProps props with
  | Some c, _, _, _ =>
      fst r = inr tt
      /\ databaseCluster (snd r) = Some (cluster_existing c)
      /\ dbInstance (snd r) = None
  | None, Some p, _, _ =>
      fst r = inr tt
      /\ databaseCluster (snd r)
         = Some (cluster_from_props ("AuroraCluster" ++ stage)%string p)
      /\ dbInstance (snd r) = None
  | None, None, Some i, _ =>
      fst r = inr tt
      /\ dbInstance (snd r) = Some (instance_existing i)
      /\ databaseCluster (snd r) = None
  | None, None, None, Some p =>
      fst r = inr tt
      /\ dbInstance (snd r)
         = Some (instance_from_props ("AuroraInstance" ++ stage)%string p)
      /\ databaseCluster (snd r) = None
  | None, None, None, None =>
      match dbName props, databaseType props with
      | MYSQL, Some RDS =>
          fst r = inr tt
          /\ dbInstance (snd r)
             = Some (instance_mysql "MysqlRdsInstance" (dbPort_of props))
          /\ databaseCluster (snd r) = None
      | MYSQL, _ =>
          fst r = inr tt
          /\ databaseCluster (snd r)
             = Some (cluster_aurora_mysql "AuroraCluster" (dbPort_of props))
          /\ dbInstance (snd r) = None
      | _, _ =>
          fst r = inl (Error "Invalid database name")
          /\ databaseCluster (snd r) = None
          /\ dbInstance (snd r) = None
      end
  end
  /\ (fst r = inr tt -> assigned_fields (snd r) = 1).
Proof.
  unfold selectDatabase, createRdsInstance, createAuroraCluster.
  destruct (existingAuroraDbCluster props), (databaseClusterProps props),
    (existingRdsDbInstance props), (databaseInstanceProps props);
    try (simpl; repeat split; reflexivity).
  destruct (dbName props), (databaseType props) as [[|] |];
    simpl; repeat split; auto; discriminate.
Qed.

Lemma database_selection_precedence_witness :
  fst (selectDatabase "_dev" (minimal_props MYSQL) fresh) = inr tt
  /\ assigned_fields (snd (selectDatabase "_dev" (minimal_props MYSQL) fresh)) = 1.
Proof.
  split; [reflexivity | ].
  exact (proj2 (database_selection_precedence "_dev" (minimal_props MYSQL))
           eq_refl).
Defined.

End SetUp.

(** * Further properties of runs *)

Section MoreRuns.

Variable w : World.

(** Invariants, with a consequence for each way a run can stop. *)
Lemma run_inv_outcome (I : Config -> Prop) (Q : Outcome -> Prop) :
  (forall c, I c ->
     match step w c with
     | Next c' => I c'
     | o => Q o
     end) ->
  forall n c, I c ->
    match run w n c with
    | Running c' => I c'
    | Completed t j => Q (Done t j)
    | Suspended t j => Q (Waiting t j)
    | Failed t j => Q (Fault t j)
    end.
Proof.
  intros Hstep; induction n as [| n IH]; intros c Hc; simpl.
  - exact Hc.
  - specialize (Hstep c Hc). destruct (step w c); cbv beta iota in *;
      [apply IH | | | ]; exact Hstep.
Qed.

Lemma step_edge (c c' : Config) :
  step w c = Next c' -> edge (at_state c) (at_state c').
Proof.
  destruct c as [s j t]. unfold edge.
  destruct s; step_cases; intros H; try discriminate H;
    injection H as <-; simpl; auto.
Qed.

Lemma step_done (c : Config) (t : list Event) (j : json) :
  step w c = Done t j ->
  at_state c = publish_query_result
  /\ j = ctx c
  /\ exists body,
       publish_body j = Some body
       /\ t = trace c ++ [Sent outputQueue publish_query_result body].
Proof.
  destruct c as [s j0 t0].
  destruct s; try (step_cases; intros H; discriminate H).
  rewrite step_publish. cbn [at_state ctx trace].
  destruct (publish_body j0) as [body |] eqn:E; intros H; try discriminate H.
  injection H as <- <-. rewrite E. eauto.
Qed.

Lemma render_cons (k : string) (i : TaskInput) (b : list (string * TaskInput))
  (j : json) (n : nat) :
  render ((k, i) :: b) j n
  = match render_input i j n, render b j n with
    | Some v, Some ms => Some ((k, v) :: ms)
    | _, _ => None
    end.
Proof. reflexivity. Qed.

(** A rendered body has a value for every member declared. *)
Lemma render_member (b : list (string * TaskInput)) (j : json) (n : nat)
  (body : Message) (k : string) (i : TaskInput) :
  render b j n = Some body ->
  In (k, i) b ->
  exists v, render_input i j n = Some v /\ In (k, v) body.
Proof.
  revert body; induction b as [| [k0 i0] b IH]; intros body H Hin.
  - contradiction.
  - rewrite render_cons in H.
    destruct (render_input i0 j n) as [v0 |] eqn:E0; try discriminate H.
    destruct (render b j n) as [ms |]; try discriminate H.
    injection H as <-. destruct Hin as [[= <- <-] | Hin].
    + exists v0. split; [exact E0 | left; reflexivity].
    + destruct (IH ms eq_refl Hin) as (v & Hv & Hm).
      exists v. split; [exact Hv | right; exact Hm].
Qed.

Lemma step_waiting (c : Config) (t : list Event) (j : json) :
  step w c = Waiting t j ->
  In (at_state c) feedback_states
  /\ exists body v,
       t = trace c ++ [Sent queue (at_state c) body]
       /\ In ("TaskToken", v) body.
Proof.
  destruct c as [s j0 t0].
  destruct s; try (step_cases; intros H; discriminate H).
  all: unfold step, goto; cbn [at_state definition ctx trace];
    (destruct (render _ j0 _) as [body |] eqn:E; [ | discriminate]);
    (destruct (reviewer w _ body); [discriminate | ]);
    intros H; injection H as <- <-;
    (split; [simpl; tauto | ]);
    (destruct (render_member _ _ _ _ "TaskToken" taskToken E) as (v & _ & Hv);
     [unfold generated_query_body; simpl; tauto | ]);
    exists body, v; split; [reflexivity | exact Hv].
Qed.

Lemma tally_step (c : Config) :
  tally_inv c ->
  match step w c with
  | Next c' => tally_inv c'
  | Done t _ => publish_counts t
  | _ => True
  end.
Proof.
  intros (Hc & Hr & Hp).
  pose proof (counts_step w c Hc) as Hs.
  destruct c as [s j t]; unfold tally_inv, counts_inv, publish_counts in *;
    simpl in *.
  destruct s; revert Hs; step_cases; intros Hs;
    try exact I;
    try (specialize (Hp eq_refl));
    unfold counts_inv in *; simpl in *;
    repeat match goal with
      | |- _ /\ _ => split
      | |- _ -> _ => intros ?
      end;
    try discriminate; try (count_events; simpl; lia);
    try (revert Hs; count_events; simpl; lia).
Qed.

Lemma tally_init (input : json) : tally_inv (init input).
Proof.
  split; [apply counts_init | ]. split; [reflexivity | discriminate].
Qed.

Lemma feedback_step (c : Config) :
  feedback_inv c ->
  match step w c with
  | Next c' => feedback_inv c'
  | Done t _ | Waiting t _ | Fault t _ => feedback_bounds t
  end.
Proof.
  destruct c as [s j t]; unfold feedback_inv, feedback_bounds; simpl.
  destruct s; intros [H0 H]; step_cases; unfold feedback_inv; simpl;
    count_events; lia.
Qed.

Lemma feedback_inv_bounds (c : Config) :
  feedback_inv c -> feedback_bounds (trace c).
Proof.
  destruct c as [s j t]; unfold feedback_inv, feedback_bounds; simpl.
  destruct s; intros [H0 H]; lia.
Qed.

End MoreRuns.

Lemma counts_inv_bounds (c : Config) :
  counts_inv c ->
  calls queryExecutorFunction (trace c) <= 1 /\ sent outputQueue (trace c) = 0.
Proof.
  destruct c as [s j t]; unfold counts_inv; simpl. destruct s; lia.
Qed.

(** A run only moves along transitions of the graph: the state it stands
    at after any number of states is reachable, in the graph, from the
    state it started at. *)
Lemma run_follows_graph (w : World) (n : nat) (c c' : Config) :
  run w n c = Running c' ->
  Relation_Operators.clos_refl_trans _ edge (at_state c) (at_state c').
Proof.
  revert c; induction n as [| n IH]; intros c H.
  - injection H as <-. apply Relation_Operators.rt_refl.
  - rewrite run_S in H.
    destruct (step w c) as [c1 | | |] eqn:E; try discriminate.
    eapply Relation_Operators.rt_trans;
      [apply Relation_Operators.rt_step, (step_edge w _ _ E) | apply IH, H].
Qed.

Lemma completed_step (w : World) (c : Config) :
  tally_inv c ->
  match step w c with
  | Next c' => tally_inv c'
  | o => completed_outcome o
  end.
Proof.
  intros Hc. pose proof (tally_step w c Hc) as Hs.
  destruct (step w c) as [c' | t j | |] eqn:E; simpl; auto.
  split; [ | exact Hs].
  destruct (step_done w c t j E) as (_ & _ & body & Hb & Ht).
  exists (trace c), body.
  split; [exact Ht | split; [exact Hb | apply counts_inv_bounds, Hc]].
Qed.

Lemma completed_facts (w : World) (input : json) (n : nat)
  (t : list Event) (final : json) :
  run w n (init input) = Completed t final ->
  (exists t0 body,
     t = t0 ++ [Sent outputQueue publish_query_result body]
     /\ publish_body final = Some body
     /\ sent outputQueue t0 = 0)
  /\ publish_counts t.
Proof.
  intros H.
  pose proof (run_inv_outcome w tally_inv completed_outcome
                (completed_step w) n (init input) (tally_init input)) as Hinv.
  rewrite H in Hinv. exact Hinv.
Qed.

(** X1. A run completes only by publishing: the last event of a completed
    run is the message of [publish_query_result], whose three members are
    the task inputs (type 0) holding the [queryStatus.Payload.result], the
    [user_question] and the [question_unique_id] of the final context, and
    it is the only message on the output queue. *)
Theorem completed_run_published (w : World) (input : json) (n : nat)
  (t : list Event) (final : json) :
  run w n (init input) = Completed t final ->
  exists t0 r u q,
    t = t0 ++ [Sent outputQueue publish_query_result
                 [ ("result", text_input r);
                   ("user_question", text_input u);
                   ("question_unique_id", text_input q) ]]
    /\ get_path ["queryStatus"; "Payload"; "result"] final = Some r
    /\ get_path ["user_question"] final = Some u
    /\ get_path ["question_unique_id"] final = Some q
    /\ sent outputQueue t0 = 0
    /\ sent outputQueue t = 1.
Proof.
  intros H.
  destruct (completed_facts w input n t final H)
    as [(t0 & body & -> & Hb & H0) _].
  rewrite publish_body_spec in Hb.
  destruct (get_path ["queryStatus"; "Payload"; "result"] final) as [r |];
    try discriminate Hb.
  destruct (get_path ["user_question"] final) as [u |]; try discriminate Hb.
  destruct (get_path ["question_unique_id"] final) as [q |];
    try discriminate Hb.
  injection Hb as <-. exists t0, r, u, q.
  repeat (split; [reflexivity | ]). split; [exact H0 | ].
  count_events. lia.
Qed.

Lemma completed_run_published_witness :
  exists t final t0 r u q,
    run world_A 8 (init example_input) = Completed t final
    /\ t = t0 ++ [Sent outputQueue publish_query_result
                    [ ("result", text_input r);
                      ("user_question", text_input u);
                      ("question_unique_id", text_input q) ]]
    /\ sent outputQueue t = 1.
Proof.
  assert (H : run world_A 8 (init example_input)
              = Completed (trace_of (run world_A 8 (init example_input)))
                  (match run world_A 8 (init example_input) with
                   | Completed _ j => j | _ => JNull end))
    by (vm_compute; reflexivity).
  destruct (completed_run_published world_A example_input 8 _ _ H)
    as (t0 & r & u & q & Ht & _ & _ & _ & _ & H1).
  eexists; eexists; exists t0, r, u, q.
  split; [exact H | split; [exact Ht | exact H1]].
Defined.

(** X2. Whatever the functions and the reviewer answer, and however far a
    run has got, ExecuteQuery has been invoked at most once and at most one
    message has been published. *)
Theorem execute_at_most_once (w : World) (input : json) (n : nat) :
  calls queryExecutorFunction (trace_of (run w n (init input))) <= 1
  /\ sent outputQueue (trace_of (run w n (init input))) <= 1.
Proof.
  refine (proj1 (run_inv w counts_inv
    (fun t => calls queryExecutorFunction t <= 1 /\ sent outputQueue t <= 1)
    _ _ n (init input) (counts_init input))).
  - intros c Hc. pose proof (counts_step w c Hc) as Hs.
    destruct (step w c); auto; lia.
  - intros c Hc. pose proof (counts_inv_bounds c Hc). lia.
Qed.

(** X3. In a completed run Reformulate was invoked once, and either the
    loop was never entered (no Iterate, one GenerateQuery, at most one
    ExecuteQuery), or it was, after the one ExecuteQuery, and then
    GenerateQuery was invoked as often as Iterate: once before the loop and
    once after every Iterate but the last. *)
Theorem completed_run_counts (w : World) (input : json) (n : nat)
  (t : list Event) (final : json) :
  run w n (init input) = Completed t final ->
  calls reformulateQuestionFunction t = 1
  /\ ((calls autocorrectQueryFunction t = 0
       /\ calls queryGeneratorFunction t = 1
       /\ calls queryExecutorFunction t <= 1)
      \/ (1 <= calls autocorrectQueryFunction t
          /\ calls queryGeneratorFunction t = calls autocorrectQueryFunction t
          /\ calls queryExecutorFunction t = 1)).
Proof.
  intros H. exact (proj2 (completed_facts w input n t final H)).
Qed.

Lemma completed_run_counts_witness :
  exists t final,
    run world_A 8 (init example_input) = Completed t final
    /\ calls reformulateQuestionFunction t = 1
    /\ ((calls autocorrectQueryFunction t = 0
         /\ calls queryGeneratorFunction t = 1
         /\ calls queryExecutorFunction t <= 1)
        \/ (1 <= calls autocorrectQueryFunction t
            /\ calls queryGeneratorFunction t = calls autocorrectQueryFunction t
            /\ calls queryExecutorFunction t = 1)).
Proof.
  assert (H : run world_A 8 (init example_input)
              = Completed (trace_of (run world_A 8 (init example_input)))
                  (match run world_A 8 (init example_input) with
                   | Completed _ j => j | _ => JNull end))
    by (vm_compute; reflexivity).
  eexists; eexists. split; [exact H | ].
  exact (completed_run_counts world_A example_input 8 _ _ H).
Defined.

Lemma stopped_step (w : World) (c : Config) :
  counts_inv c ->
  match step w c with
  | Next c' => counts_inv c'
  | Done _ _ => True
  | Waiting t _ =>
      sent outputQueue t = 0
      /\ exists t0 s body v,
           t = t0 ++ [Sent queue s body]
           /\ In s feedback_states /\ In ("TaskToken", v) body
  | Fault t _ => sent outputQueue t = 0
  end.
Proof.
  intros Hc. pose proof (counts_step w c Hc) as Hs.
  destruct (step w c) as [c' | | t j | t j] eqn:E; auto; try tauto.
  split; [tauto | ].
  destruct (step_waiting w c t j E) as (Hin & body & v & Ht & Hb).
  exists (trace c), (at_state c), body, v. auto.
Qed.

(** X4. A run that is waiting for the reviewer has published nothing, and
    its last event is a request on the feedback queue, sent by one of the
    three feedback states and carrying a task token; a run that has failed
    has published nothing either. *)
Theorem stopped_run_unpublished (w : World) (input : json) (n : nat) :
  match run w n (init input) with
  | Suspended t _ =>
      sent outputQueue t = 0
      /\ exists t0 s body v,
           t = t0 ++ [Sent queue s body]
           /\ In s feedback_states /\ In ("TaskToken", v) body
  | Failed t _ => sent outputQueue t = 0
  | _ => True
  end.
Proof.
  pose proof (run_inv_outcome w counts_inv
    (fun o => match o with
              | Waiting t _ =>
                  sent outputQueue t = 0
                  /\ exists t0 s body v,
                       t = t0 ++ [Sent queue s body]
                       /\ In s feedback_states
                       /\ In ("TaskToken", v) body
              | Fault t _ => sent outputQueue t = 0
              | _ => True
              end) (stopped_step w) n (init input) (counts_init input)) as H.
  destruct (run w n (init input)); auto.
Qed.

Lemma feedback_bounds_run (w : World) (input : json) (n : nat) :
  feedback_bounds (trace_of (run w n (init input))).
Proof.
  refine (proj1 (run_inv w feedback_inv feedback_bounds _ _ n (init input) _)).
  - apply feedback_step.
  - apply feedback_inv_bounds.
  - unfold feedback_inv; simpl. auto.
Qed.

(** X5. In any run, at any point, at most two feedback requests have been
    sent: at most one on the reformulated question, and at most one on the
    generated query, which comes from path one only after a request on the
    reformulated question and from path two only without one. *)
Theorem feedback_requests_bounded (w : World) (input : json) (n : nat) :
  let t := trace_of (run w n (init input)) in
  sent queue t <= 2
  /\ sent_from get_feedback_on_reformulated_question t <= 1
  /\ sent_from get_feedback_on_generated_query_path_one t
     <= sent_from get_feedback_on_reformulated_question t
  /\ sent_from get_feedback_on_generated_query_path_two t
     + sent_from get_feedback_on_reformulated_question t <= 1.
Proof.
  intros t. pose proof (feedback_bounds_run w input n) as H.
  unfold feedback_bounds in H. fold t in H. lia.
Qed.

(** ** Events are never taken back *)

Lemma step_trace (w : World) (c : Config) :
  exists l,
    match step w c with
    | Next c' => trace c' = trace c ++ l
    | Done t _ | Waiting t _ | Fault t _ => t = trace c ++ l
    end.
Proof.
  destruct c as [s j t].
  destruct s; step_cases;
    first [ exists []; rewrite app_nil_r; reflexivity
          | eexists; reflexivity ].
Qed.

Lemma trace_grows (w : World) (n : nat) (c : Config) :
  exists l, trace_of (run w n c) = trace c ++ l.
Proof.
  revert c; induction n as [| n IH]; intros c; simpl.
  - exists []. rewrite app_nil_r. reflexivity.
  - destruct (step_trace w c) as [l Hl].
    destruct (step w c) as [c' | | |]; simpl;
      try (exists l; exact Hl).
    destruct (IH c') as [l' Hl']. exists (l ++ l').
    rewrite Hl', Hl, app_assoc. reflexivity.
Qed.

Lemma trace_extends (w : World) (n k : nat) (c : Config) :
  exists l, trace_of (run w (n + k) c) = trace_of (run w n c) ++ l.
Proof.
  revert c; induction n as [| n IH]; intros c.
  - apply trace_grows.
  - simpl. destruct (step w c) as [c' | | |]; simpl;
      try (exists []; rewrite app_nil_r; reflexivity).
    apply IH.
Qed.

Lemma sent_from_app (s : StateId) (t l : list Event) :
  sent_from s (t ++ l) = sent_from s t + sent_from s l.
Proof. unfold sent_from. rewrite filter_app, length_app. reflexivity. Qed.

(** The request on the reformulated question, member by member. *)
Lemma reformulated_body_spec (r : json) (n : nat) :
  render reformulated_question_body r n
  = match get_path ["reformulated_user_question"] r,
          get_path ["user_question"] r,
          get_path ["question_unique_id"] r with
    | Some rq, Some u, Some q =>
        Some [ ("message",
                JStr "Following is the reformulated question. Do you agree with the new question?");
               ("reformualted_question", text_input rq);
               ("user_question", text_input u);
               ("question_unique_id", text_input q);
               ("TaskToken", JNum (Z.of_nat n)) ]
    | _, _, _ => None
    end.
Proof.
  cbv [reformulated_question_body render render_input option_map].
  destruct (get_path ["reformulated_user_question"] r),
    (get_path ["user_question"] r), (get_path ["question_unique_id"] r);
    reflexivity.
Qed.

Lemma step_gate_one (w : World) (r : json) (t : list Event) :
  step w {| at_state := get_feedback_on_reformulated_question;
            ctx := r; trace := t |}
  = match render reformulated_question_body r (sent queue t) with
    | Some body =>
        let t' := t ++ [Sent queue get_feedback_on_reformulated_question body] in
        match reviewer w (sent queue t) body with
        | Some j => Next {| at_state := generate_query_path_one; ctx := j;
                            trace := t' |}
        | None => Waiting t' r
        end
    | None => Fault t r
    end.
Proof. reflexivity. Qed.

(** X6. When the execution input is an object and Reformulate's response
    has [semantic_layer_strategy] equal to ["human"], the third state of
    the run is the request on the reformulated question.  If the response
    has the three members the request reads, then from its third state on
    the trace of the run holds exactly one request of
    [get_feedback_on_reformulated_question], whose reformulated question,
    user question and correlation id are the task inputs (type 0) holding
    those members of the response; if one of them is missing, the state
    fails and no request is ever sent. *)
Theorem reformulation_feedback_requested (w : World)
  (ms : list (string * json)) (m : nat) :
  let r := lambda w reformulateQuestionFunction 0 (JObj ms) in
  get_path ["semantic_layer_strategy"] r = Some (JStr "human") ->
  3 <= m ->
  let t := trace_of (run w m (init (JObj ms))) in
  match get_path ["reformulated_user_question"] r,
        get_path ["user_question"] r,
        get_path ["question_unique_id"] r with
  | Some rq, Some u, Some q =>
      sent_from get_feedback_on_reformulated_question t = 1
      /\ exists body,
           In (Sent queue get_feedback_on_reformulated_question body) t
           /\ In ("reformualted_question", text_input rq) body
           /\ In ("user_question", text_input u) body
           /\ In ("question_unique_id", text_input q) body
  | _, _, _ =>
      sent_from get_feedback_on_reformulated_question t = 0
      /\ run w m (init (JObj ms))
         = Failed [Invoked reformulateQuestionFunction (JObj ms)] r
  end.
Proof.
  intros r Hh Hm t.
  assert (H3 : run w 3 (init (JObj ms))
               = match render reformulated_question_body r 0 with
                 | Some body =>
                     match reviewer w 0 body with
                     | Some j =>
                         Running
                           {| at_state := generate_query_path_one; ctx := j;
                              trace :=
                                [ Invoked reformulateQuestionFunction (JObj ms);
                                  Sent queue
                                    get_feedback_on_reformulated_question body ]
                           |}
                     | None =>
                         Suspended
                           [ Invoked reformulateQuestionFunction (JObj ms);
                             Sent queue get_feedback_on_reformulated_question
                               body ] r
                     end
                 | None =>
                     Failed [Invoked reformulateQuestionFunction (JObj ms)] r
                 end).
  { unfold init, startState.
    rewrite run_S, step_reformulate.
    rewrite run_S, (step_first_branch w _ r)
      by (rewrite get_put_same; reflexivity).
    rewrite Hh.
    change (json_str_eqb (JStr "human") "human") with true. cbv iota.
    rewrite run_S, step_gate_one.
    change (sent queue ([] ++ [Invoked reformulateQuestionFunction (JObj ms)]))
      with 0.
    destruct (render reformulated_question_body r 0) as [body |];
      [ | reflexivity].
    cbv zeta. destruct (reviewer w 0 body); reflexivity. }
  rewrite reformulated_body_spec in H3.
  destruct (trace_extends w 3 (m - 3) (init (JObj ms))) as [l Hl].
  replace (3 + (m - 3)) with m in Hl by lia.
  destruct (get_path ["reformulated_user_question"] r) as [rq |];
    [destruct (get_path ["user_question"] r) as [u |];
     [destruct (get_path ["question_unique_id"] r) as [q |] | ] | ].
  - set (body := [ ("message", _); ("reformualted_question", text_input rq);
                   ("user_question", text_input u);
                   ("question_unique_id", text_input q);
                   ("TaskToken", _) ]) in H3.
    assert (Ht : t = [ Invoked reformulateQuestionFunction (JObj ms);
                       Sent queue get_feedback_on_reformulated_question body ]
                     ++ l).
    { unfold t. rewrite Hl, H3. destruct (reviewer w 0 body); reflexivity. }
    split.
    + pose proof (feedback_bounds_run w (JObj ms) m) as (_ & Hle & _).
      fold t in Hle. rewrite Ht in Hle |- *.
      rewrite sent_from_app in Hle |- *.
      change (sent_from get_feedback_on_reformulated_question
                [ Invoked reformulateQuestionFunction (JObj ms);
                  Sent queue get_feedback_on_reformulated_question body ])
        with 1 in Hle |- *.
      lia.
    + exists body. split.
      * rewrite Ht. simpl. auto.
      * unfold body. simpl. auto 10.
  - assert (Hf : run w m (init (JObj ms))
                 = Failed [Invoked reformulateQuestionFunction (JObj ms)] r).
    { replace m with (3 + (m - 3)) by lia.
      rewrite run_stopped; [exact H3 | intros c'; rewrite H3; discriminate]. }
    split; [unfold t; rewrite Hf; reflexivity | exact Hf].
  - assert (Hf : run w m (init (JObj ms))
                 = Failed [Invoked reformulateQuestionFunction (JObj ms)] r).
    { replace m with (3 + (m - 3)) by lia.
      rewrite run_stopped; [exact H3 | intros c'; rewrite H3; discriminate]. }
    split; [unfold t; rewrite Hf; reflexivity | exact Hf].
  - assert (Hf : run w m (init (JObj ms))
                 = Failed [Invoked reformulateQuestionFunction (JObj ms)] r).
    { replace m with (3 + (m - 3)) by lia.
      rewrite run_stopped; [exact H3 | intros c'; rewrite H3; discriminate]. }
    split; [unfold t; rewrite Hf; reflexivity | exact Hf].
Qed.

Lemma reformulation_feedback_requested_witness :
  sent_from get_feedback_on_reformulated_question
    (trace_of (run world_H 5 (init example_input))) = 1
  /\ sent_from get_feedback_on_reformulated_question
       (trace_of (run world_bare 5 (init example_input))) = 0.
Proof.
  split.
  - exact (proj1 (reformulation_feedback_requested world_H
                    [ ("user_question",
                       JStr "how many orders were placed in May?");
                      ("question_unique_id", JStr "q-1") ] 5
                    eq_refl ltac:(lia))).
  - exact (proj1 (reformulation_feedback_requested world_bare
                    [ ("user_question",
                       JStr "how many orders were placed in May?");
                      ("question_unique_id", JStr "q-1") ] 5
                    eq_refl ltac:(lia))).
Defined.

(** ** The question a run publishes *)

Lemma set_path_inv (k : string) (v j j' : json) :
  set_path [k] v j = Some j' ->
  exists ms, j = JObj ms /\ j' = JObj (put k v ms).
Proof.
  destruct j; try discriminate. rewrite set_path_top.
  intros [= <-]. eauto.
Qed.

Lemma sent_queue_snoc_pos (t : list Event) (s : StateId) (body : Message) :
  sent queue (t ++ [Sent queue s body]) = 0 -> False.
Proof. rewrite sent_snoc. simpl. lia. Qed.

Lemma same_question_put (k : string) (v : json) ms (r : json) :
  String.eqb "user_question" k = false ->
  String.eqb "question_unique_id" k = false ->
  same_question (JObj ms) r -> same_question (JObj (put k v ms)) r.
Proof.
  unfold same_question. intros H1 H2 [Hu Hq].
  rewrite !get_put_other by assumption. auto.
Qed.

Ltac choice_cases :=
  unfold choose; cbn [first_match eval];
  repeat match goal with
    | |- context [match get_path ?p ?x with _ => _ end] =>
        destruct (get_path p x)
    | |- context [if json_str_eqb ?a ?b then _ else _] =>
        destruct (json_str_eqb a b)
    | |- context [if json_bool_eqb ?a ?b then _ else _] =>
        destruct (json_bool_eqb a b)
    | |- context [match Some (json_str_eqb ?a ?b) with _ => _ end] =>
        destruct (json_str_eqb a b)
    | |- context [match Some (json_bool_eqb ?a ?b) with _ => _ end] =>
        destruct (json_bool_eqb a b)
    end; cbn [at_state ctx trace].

Lemma question_step (w : World) (input : json) (c : Config) :
  let r := lambda w reformulateQuestionFunction 0 input in
  question_inv input r c ->
  match step w c with
  | Next c' => question_inv input r c'
  | Done t j => sent queue t = 0 -> same_question j r
  | _ => True
  end.
Proof.
  intros r. destruct c as [s j t]. unfold question_inv.
  cbn [at_state ctx trace].
  destruct s; intros H; unfold step, goto; cbn [at_state definition ctx trace];
    try (destruct (set_path _ _ j) as [j' |] eqn:E; [ | exact I];
         apply set_path_inv in E; destruct E as (ms & -> & ->);
         cbn [at_state ctx trace]);
    try (destruct (render _ j _) as [body |]; [ | exact I];
         cbn [at_state ctx trace]).
  all: try (destruct (reviewer w _ _); [ | exact I]; cbn [at_state ctx trace];
            intros Hq; exfalso; exact (sent_queue_snoc_pos _ _ _ Hq)).
  all: try (rewrite ?sent_snoc; cbn [is_sent Queue_eqb]; rewrite ?Nat.add_0_r;
            intros Hq; apply same_question_put; [reflexivity | reflexivity | ];
            apply H, Hq).
  all: try (choice_cases; first [exact I | exact H]).
  - (* reformulate_question *)
    destruct H as [Hj Ht]. subst r input t.
    split; [rewrite get_put_same; reflexivity | reflexivity].
  - (* publish_query_result *)
    rewrite sent_snoc. cbn [is_sent Queue_eqb]. rewrite Nat.add_0_r. exact H.
  - (* is_feedback_req_on_reformualted_question *)
    destruct H as [Hr Hq]. rewrite Hr. choice_cases;
      first [exact I | intros _; split; reflexivity].
Qed.

Lemma question_kept (w : World) (input : json) (n : nat)
  (t : list Event) (final : json) :
  run w n (init input) = Completed t final ->
  sent queue t = 0 ->
  same_question final (lambda w reformulateQuestionFunction 0 input).
Proof.
  intros H.
  pose proof (run_inv_outcome w
    (question_inv input (lambda w reformulateQuestionFunction 0 input))
    (fun o => match o with
              | Done t j =>
                  sent queue t = 0 ->
                  same_question j (lambda w reformulateQuestionFunction 0 input)
              | _ => True
              end) (question_step w input) n (init input)) as Hinv.
  rewrite H in Hinv. apply Hinv. split; reflexivity.
Qed.

(** X8. In a completed run that never asked the reviewer, the published
    message carries the [user_question] and the [question_unique_id] of
    Reformulate's response, each as a task input (type 0): the first branch
    point hands on the response it selects with its [inputPath], not the
    execution input. *)
Theorem published_question_from_reformulate (w : World) (input : json)
  (n : nat) (t : list Event) (final : json) :
  run w n (init input) = Completed t final ->
  sent queue t = 0 ->
  let r := lambda w reformulateQuestionFunction 0 input in
  exists t0 body u q,
    t = t0 ++ [Sent outputQueue publish_query_result body]
    /\ get_path ["user_question"] r = Some u
    /\ get_path ["question_unique_id"] r = Some q
    /\ In ("user_question", text_input u) body
    /\ In ("question_unique_id", text_input q) body.
Proof.
  intros H Hq r.
  destruct (question_kept w input n t final H Hq) as [Hu Hi].
  destruct (completed_facts w input n t final H) as [(t0 & body & Ht & Hb & _) _].
  fold r in Hu, Hi. rewrite publish_body_spec, Hu, Hi in Hb.
  destruct (get_path ["queryStatus"; "Payload"; "result"] final) as [x |];
    try discriminate Hb.
  destruct (get_path ["user_question"] r) as [u |]; try discriminate Hb.
  destruct (get_path ["question_unique_id"] r) as [q |]; try discriminate Hb.
  injection Hb as <-. exists t0. eexists. exists u, q.
  split; [exact Ht | ]. repeat split; simpl; auto.
Qed.

Lemma published_question_from_reformulate_witness :
  exists t final t0 body,
    run world_A 8 (init (JObj [("user_question", JStr "raw")]))
    = Completed t final
    /\ t = t0 ++ [Sent outputQueue publish_query_result body]
    /\ In ("user_question",
           text_input (JStr "how many orders were placed in May?")) body.
Proof.
  assert (H : run world_A 8 (init (JObj [("user_question", JStr "raw")]))
              = Completed
                  (trace_of (run world_A 8
                               (init (JObj [("user_question", JStr "raw")]))))
                  (match run world_A 8
                           (init (JObj [("user_question", JStr "raw")])) with
                   | Completed _ j => j | _ => JNull end))
    by (vm_compute; reflexivity).
  destruct (published_question_from_reformulate world_A _ 8 _ _ H eq_refl)
    as (t0 & body & u & q & Ht & Hu & _ & Hin & _).
  injection Hu as <-.
  eexists; eexists; exists t0, body.
  split; [exact H | split; [exact Ht | exact Hin]].
Defined.

(** ** How long a run can be *)

Lemma length_step (w : World) (n : nat) (c c' : Config) :
  length_inv n c -> step w c = Next c' -> length_inv (S n) c'.
Proof.
  destruct c as [s j t]. unfold length_inv. cbn [at_state trace].
  destruct s; step_cases; intros H E; try discriminate E;
    injection E as <-; cbn [at_state trace position];
    count_events; simpl position in *; lia.
Qed.

Lemma length_run (w : World) (k n : nat) (c c' : Config) :
  length_inv k c -> run w n c = Running c' -> length_inv (k + n) c'.
Proof.
  revert k c; induction n as [| n IH]; intros k c Hk H.
  - injection H as <-. rewrite Nat.add_0_r. exact Hk.
  - rewrite run_S in H.
    destruct (step w c) as [c1 | | |] eqn:E; try discriminate.
    replace (k + S n) with (S k + n) by lia.
    eapply IH; [eapply length_step; eassumption | exact H].
Qed.

(** X9. Only the loop makes a run long: a run that has passed [n] states
    and is still going has invoked Iterate at least [(n - 10) / 3] times;
    in particular, after more than ten states it has entered the
    autocorrect loop. *)
Theorem run_length_bounded (w : World) (input : json) (n : nat) (c : Config) :
  run w n (init input) = Running c ->
  n <= 10 + 3 * calls autocorrectQueryFunction (trace c)
  /\ (10 < n -> 1 <= calls autocorrectQueryFunction (trace c)).
Proof.
  intros H.
  assert (H0 : length_inv 0 (init input)) by (unfold length_inv; simpl; lia).
  pose proof (length_run w 0 n _ _ H0 H) as Hl.
  unfold length_inv in Hl. simpl plus in Hl.
  assert (position (at_state c) <= 10) by (destruct (at_state c); simpl; lia).
  lia.
Qed.

Lemma run_length_bounded_witness :
  let c := config_after world_D 12 example_input in
  run world_D 12 (init example_input) = Running c
  /\ 1 <= calls autocorrectQueryFunction (trace c).
Proof.
  intros c.
  assert (H : run world_D 12 (init example_input) = Running c)
    by (vm_compute; reflexivity).
  split; [exact H | ].
  apply (proj2 (run_length_bounded world_D example_input 12 c H)). lia.
Defined.
(** * Further properties of the set-up code *)

Section MoreSetUp.

Import Construct.

Lemma constructor_returns (stage : string) (props : TextToSqlProps) :
  returns (constructor stage props fresh)
  = negb (given (existingAuroraDbCluster props))
    && negb (given (databaseClusterProps props))
    && negb (given (existingRdsDbInstance props))
    && negb (given (databaseInstanceProps props))
    && is_mysql (dbName props).
Proof.
  destruct props as [eVpc eSub eLsg eDsg name type eClu pClu pIns port eIns
                       pBuc eBuc].
  cbn [existingAuroraDbCluster databaseClusterProps existingRdsDbInstance
         databaseInstanceProps dbName].
  destruct eClu, pClu, eIns, pIns, name, type as [[|] |],
    eVpc, eSub, eLsg, eDsg, eBuc; reflexivity.
Qed.

Lemma constructor_returned_state (stage : string) (props : TextToSqlProps) :
  match fst (constructor stage props fresh) with
  | inr _ =>
      secret (snd (constructor stage props fresh))
      = Some (secret_created ("AuroraSecret" ++ stage)%string
                "texttosqldbsecret")
      /\ assigned_fields (snd (constructor stage props fresh)) = 1
  | inl _ => True
  end.
Proof.
  destruct props as [eVpc eSub eLsg eDsg name type eClu pClu pIns port eIns
                       pBuc eBuc].
  destruct eClu, pClu, eIns, pIns, name, type as [[|] |],
    eVpc, eSub, eLsg, eDsg, eBuc; lazy; first [exact I | split; reflexivity].
Qed.

(** X10. The constructor returns normally exactly when the caller names no
    database of its own and [dbName] is MySQL; it then holds the secret it
    created and exactly one of the two database fields. *)
Theorem constructor_returns_iff (stage : string) (props : TextToSqlProps) :
  (fst (constructor stage props fresh) = inr tt
   <-> no_database_option props /\ dbName props = MYSQL)
  /\ (fst (constructor stage props fresh) = inr tt ->
      secret (snd (constructor stage props fresh))
      = Some (secret_created ("AuroraSecret" ++ stage)%string
                "texttosqldbsecret")
      /\ assigned_fields (snd (constructor stage props fresh)) = 1).
Proof.
  pose proof (constructor_returns stage props) as Hb.
  pose proof (constructor_returned_state stage props) as Hs.
  unfold returns, no_database_option in *.
  destruct (fst (constructor stage props fresh)) as [e | []].
  - split; [split; [discriminate | ] | discriminate].
    intros [(H1 & H2 & H3 & H4) H5].
    rewrite H1, H2, H3, H4, H5 in Hb. discriminate Hb.
  - split; [split; [intros _ | reflexivity] | intros _; exact Hs].
    destruct (existingAuroraDbCluster props), (databaseClusterProps props),
      (existingRdsDbInstance props), (databaseInstanceProps props),
      (dbName props); try discriminate Hb; repeat split.
Qed.

Lemma constructor_returns_iff_witness :
  no_database_option (minimal_props MYSQL)
  /\ fst (constructor "_dev" (minimal_props MYSQL) fresh) = inr tt
  /\ assigned_fields (snd (constructor "_dev" (minimal_props MYSQL) fresh)) = 1.
Proof.
  assert (Hn : no_database_option (minimal_props MYSQL)) by (repeat split).
  assert (Hr : fst (constructor "_dev" (minimal_props MYSQL) fresh) = inr tt)
    by exact (proj2 (proj1 (constructor_returns_iff "_dev" (minimal_props MYSQL)))
                (conj Hn eq_refl)).
  split; [exact Hn | split; [exact Hr | ]].
  exact (proj2 (proj2 (constructor_returns_iff "_dev" (minimal_props MYSQL)) Hr)).
Defined.

(** X11. With no database option and a [dbName] other than MySQL the
    constructor throws "Invalid database name", but only after it has
    created the secret: the secret is the last resource created and is in
    [this.secret], while neither database field is assigned. *)
Theorem invalid_name_after_secret (stage : string) (props : TextToSqlProps) :
  no_database_option props ->
  dbName props = POSTGRESQL ->
  let r := constructor stage props fresh in
  fst r = inl (Error "Invalid database name")
  /\ secret (snd r)
     = Some (secret_created ("AuroraSecret" ++ stage)%string
               "texttosqldbsecret")
  /\ last (resources (snd r)) "" = ("AuroraSecret" ++ stage)%string
  /\ assigned_fields (snd r) = 0.
Proof.
  destruct props as [eVpc eSub eLsg eDsg name type eClu pClu pIns port eIns
                       pBuc eBuc].
  unfold no_database_option.
  cbn [existingAuroraDbCluster databaseClusterProps existingRdsDbInstance
         databaseInstanceProps dbName].
  intros (-> & -> & -> & ->) ->.
  destruct type as [[|] |], eVpc, eSub, eLsg, eDsg;
    (split; [reflexivity | split; [reflexivity | split; reflexivity]]).
Qed.

Lemma invalid_name_after_secret_witness :
  let r := constructor "_dev" (minimal_props POSTGRESQL) fresh in
  fst r = inl (Error "Invalid database name")
  /\ last (resources (snd r)) "" = "AuroraSecret_dev".
Proof.
  intros r.
  destruct (invalid_name_after_secret "_dev" (minimal_props POSTGRESQL))
    as (H1 & _ & H3 & _).
  - repeat split.
  - reflexivity.
  - split; [exact H1 | exact H3].
Defined.

(** X12. [validateDbProps] does not look at the pairing
    {databaseClusterProps, databaseInstanceProps}: props with both (and no
    existing database) pass, the cluster is created from its properties,
    and the instance properties are dropped: no instance is created and
    [dbInstance] stays unassigned. *)
Theorem instance_props_dropped (stage : string) (props : TextToSqlProps)
  (p q : string) :
  existingAuroraDbCluster props = None ->
  existingRdsDbInstance props = None ->
  databaseClusterProps props = Some p ->
  databaseInstanceProps props = Some q ->
  let r := selectDatabase stage props fresh in
  validateDbProps props fresh = (inr tt, fresh)
  /\ fst r = inr tt
  /\ databaseCluster (snd r)
     = Some (cluster_from_props ("AuroraCluster" ++ stage)%string p)
  /\ dbInstance (snd r) = None
  /\ resources (snd r) = [("AuroraCluster" ++ stage)%string].
Proof.
  destruct props as [eVpc eSub eLsg eDsg name type eClu pClu pIns port eIns
                       pBuc eBuc].
  cbn [existingAuroraDbCluster databaseClusterProps existingRdsDbInstance
         databaseInstanceProps].
  intros -> -> -> ->. repeat split.
Qed.

Lemma instance_props_dropped_witness :
  let r := selectDatabase "_dev" props_cluster_and_instance_props fresh in
  validateDbProps props_cluster_and_instance_props fresh = (inr tt, fresh)
  /\ dbInstance (snd r) = None
  /\ resources (snd r) = ["AuroraCluster_dev"].
Proof.
  intros r.
  destruct (instance_props_dropped "_dev" props_cluster_and_instance_props
              "myClusterProps" "myInstanceProps" eq_refl eq_refl eq_refl eq_refl)
    as (H1 & _ & _ & H4 & H5).
  split; [exact H1 | split; [exact H4 | exact H5]].
Defined.

Lemma vpc_created_bool (stage : string) (props : TextToSqlProps) :
  conflicting props = false ->
  let created := resources (snd (constructor stage props fresh)) in
  existsb (String.eqb "Vpc") created
  = negb (given (existingVpc props) && given (existingSubnetGroup props))
  /\ starts_with_vpc created
     = negb (given (existingVpc props) && given (existingSubnetGroup props)).
Proof.
  destruct props as [eVpc eSub eLsg eDsg name type eClu pClu pIns port eIns
                       pBuc eBuc].
  unfold conflicting.
  cbn [existingAuroraDbCluster databaseClusterProps existingRdsDbInstance
         databaseInstanceProps dbName existingVpc existingSubnetGroup].
  destruct eClu, pClu, eIns, pIns; intros Hv; try discriminate Hv; clear Hv;
    destruct name, type as [[|] |], eVpc, eSub, eLsg, eDsg, eBuc;
    split; reflexivity.
Qed.

(** X13. An existing VPC is used only together with an existing subnet
    group: for props that pass validation the constructor creates its own
    "Vpc" and "SubnetGroup", as its first two resources, exactly when one
    of [existingVpc] and [existingSubnetGroup] is left out. *)
Theorem vpc_created_unless_both_given (stage : string) (props : TextToSqlProps) :
  conflicting props = false ->
  let created := resources (snd (constructor stage props fresh)) in
  (In "Vpc" created
   <-> existingVpc props = None \/ existingSubnetGroup props = None)
  /\ (existingVpc props = None \/ existingSubnetGroup props = None ->
      exists rest, created = "Vpc" :: "SubnetGroup" :: rest).
Proof.
  intros Hv created.
  destruct (vpc_created_bool stage props Hv) as [He Hs].
  fold created in He, Hs.
  assert (Hg : negb (given (existingVpc props)
                     && given (existingSubnetGroup props)) = true
               <-> existingVpc props = None \/ existingSubnetGroup props = None).
  { destruct (existingVpc props), (existingSubnetGroup props); simpl;
      intuition discriminate. }
  split.
  - rewrite <- Hg, <- He. rewrite existsb_exists. split.
    + intros H. exists "Vpc". split; [exact H | reflexivity].
    + intros (x & Hx & Hq). apply String.eqb_eq in Hq. subst x. exact Hx.
  - intros H. apply Hg in H. rewrite H in Hs.
    unfold starts_with_vpc in Hs.
    destruct created as [| a [| b rest]]; try discriminate Hs.
    apply andb_prop in Hs. destruct Hs as [Ha Hb].
    apply String.eqb_eq in Ha, Hb. subst. eauto.
Qed.

Lemma vpc_created_unless_both_given_witness :
  conflicting props_cluster_and_instance_props = false
  /\ In "Vpc" (resources
                 (snd (constructor "_dev" props_cluster_and_instance_props
                         fresh))).
Proof.
  split; [reflexivity | ].
  apply (proj1 (vpc_created_unless_both_given "_dev"
                  props_cluster_and_instance_props eq_refl)).
  right. reflexivity.
Defined.

End MoreSetUp.

(** * The result a run publishes *)

Lemma executed_result_put (w : World) (t : list Event) (e : Event)
  (k : string) (v : json) ms :
  String.eqb "queryStatus" k = false ->
  executed_result w t (JObj ms) ->
  executed_result w (t ++ [e]) (JObj (put k v ms)).
Proof.
  intros Hk (x & Hin & Hx). exists x. split.
  - apply in_or_app. left. exact Hin.
  - rewrite get_put_other by exact Hk. exact Hx.
Qed.

Lemma result_step (w : World) (c : Config) :
  result_inv w c ->
  match step w c with
  | Next c' => result_inv w c'
  | Done t j =>
      calls queryExecutorFunction t = 1 ->
      executed_result w (removelast t) j
  | _ => True
  end.
Proof.
  destruct c as [s j t]. unfold result_inv. cbn [at_state ctx trace].
  destruct s; intros H; unfold step, goto; cbn [at_state definition ctx trace];
    try (destruct (set_path _ _ j) as [j' |] eqn:E; [ | exact I];
         apply set_path_inv in E; destruct E as (ms & -> & ->);
         cbn [at_state ctx trace]);
    try (destruct (render _ j _) as [body |]; [ | exact I];
         cbn [at_state ctx trace]).
  all: try (destruct (reviewer w _ _); [ | exact I]; cbn [at_state ctx trace];
            rewrite calls_snoc; cbn [is_call]; lia).
  all: try (rewrite calls_snoc; cbn [is_call Fn_eqb]; lia).
  all: try (apply executed_result_put; [reflexivity | exact H]).
  all: try (choice_cases;
            first [ exact I | exact H | intros _; exact H
                  | intros He; rewrite H in He; discriminate He ]).
  - (* configure_count *)
    destruct H as (x & Hin & Hx). exists x. split; [exact Hin | ].
    rewrite get_put_other by reflexivity. exact Hx.
  - (* publish_query_result *)
    rewrite removelast_last. rewrite calls_snoc. cbn [is_call].
    rewrite Nat.add_0_r. exact H.
  - (* execute_query *)
    exists (JObj ms). split.
    + apply in_or_app. right. left. reflexivity.
    + rewrite H, get_put_same. reflexivity.
Qed.

(** X14. The result a run publishes is the result of its only ExecuteQuery
    invocation: in a completed run that has executed a query, the [result]
    member of the published message is the task input (type 0) holding the
    [result] of the response ExecuteQuery gave, whether or not the run went
    through the autocorrect loop afterwards. *)
Theorem published_result_is_executed (w : World) (input : json) (n : nat)
  (t : list Event) (final : json) :
  run w n (init input) = Completed t final ->
  calls queryExecutorFunction t = 1 ->
  exists x t0 body v,
    In (Invoked queryExecutorFunction x) t0
    /\ t = t0 ++ [Sent outputQueue publish_query_result body]
    /\ get_path ["result"] (lambda w queryExecutorFunction 0 x) = Some v
    /\ In ("result", text_input v) body.
Proof.
  intros H He.
  pose proof (run_inv_outcome w (result_inv w)
    (fun o => match o with
              | Done t j =>
                  calls queryExecutorFunction t = 1 ->
                  executed_result w (removelast t) j
              | _ => True
              end) (result_step w) n (init input)) as Hinv.
  rewrite H in Hinv.
  destruct (Hinv eq_refl He) as (x & Hin & Hx).
  destruct (completed_facts w input n t final H)
    as [(t0 & body & Ht & Hb & _) _].
  subst t. rewrite removelast_last in Hin.
  rewrite publish_body_spec, Hx in Hb.
  destruct (get_path ["result"] (lambda w queryExecutorFunction 0 x))
    as [v |] eqn:Ev; try discriminate Hb.
  destruct (get_path ["user_question"] final) as [u |]; try discriminate Hb.
  destruct (get_path ["question_unique_id"] final) as [q |];
    try discriminate Hb.
  injection Hb as <-. exists x, t0. eexists. exists v.
  split; [exact Hin | split; [reflexivity | split; [exact Ev | ]]].
  left. reflexivity.
Qed.

Lemma published_result_is_executed_witness :
  exists t final x t0 body,
    run world_A 8 (init example_input) = Completed t final
    /\ calls queryExecutorFunction t = 1
    /\ t = t0 ++ [Sent outputQueue publish_query_result body]
    /\ In ("result", text_input (JStr "42")) body
    /\ get_path ["result"] (lambda world_A queryExecutorFunction 0 x)
       = Some (JStr "42").
Proof.
  assert (H : run world_A 8 (init example_input)
              = Completed (trace_of (run world_A 8 (init example_input)))
                  (match run world_A 8 (init example_input) with
                   | Completed _ j => j | _ => JNull end))
    by (vm_compute; reflexivity).
  assert (He : calls queryExecutorFunction
                 (trace_of (run world_A 8 (init example_input))) = 1)
    by (vm_compute; reflexivity).
  destruct (published_result_is_executed world_A example_input 8 _ _ H He)
    as (x & t0 & body & v & _ & Ht & Hv & Hb).
  assert (Hv' : v = JStr "42") by (vm_compute in Hv; congruence).
  subst v.
  eexists; eexists; exists x, t0, body.
  split; [exact H | split; [exact He | split; [exact Ht | split; [exact Hb | ]]]].
  reflexivity.
Defined.

(** * The secret of a database of one's own *)

(** X15. For every props that pass validation and name a database of
    their own (an existing cluster, cluster properties, an existing
    instance or instance properties), the constructor throws a [TypeError]
    on reading [this.secret.secretArn]: no branch but the default one
    assigns [this.secret]. *)
Theorem own_database_throws_type_error (stage : string)
  (props : Construct.TextToSqlProps) :
  conflicting props = false ->
  Construct.given (Construct.existingAuroraDbCluster props)
  || Construct.given (Construct.databaseClusterProps props)
  || Construct.given (Construct.existingRdsDbInstance props)
  || Construct.given (Construct.databaseInstanceProps props) = true ->
  fst (Construct.constructor stage props Construct.fresh)
  = inl (Construct.TypeError
           "Cannot read properties of undefined (reading 'secretArn')").
Proof. exact (own_database_secret_undefined stage props). Qed.

Lemma own_database_throws_type_error_witness :
  conflicting props_existing_cluster = false
  /\ fst (Construct.constructor "_dev" props_existing_cluster Construct.fresh)
     = inl (Construct.TypeError
              "Cannot read properties of undefined (reading 'secretArn')").
Proof.
  split; [reflexivity | ].
  exact (own_database_throws_type_error "_dev" props_existing_cluster
           eq_refl eq_refl).
Defined.
